(** * MacaroniAudioDriver: lifecycle of the virtual audio device

    A shallow embedding of [MacaroniAudioExtension/MacaroniAudioDriver.cpp].
    The driver's methods are written in a small state monad with early
    return, over a state made of the driver's [ivars] block and of the
    host-side audio objects the driver creates through the audio framework.
    Every framework call is recorded, in order, in a trace. *)

From Stdlib Require Import ZArith QArith String Lia.
From stdpp Require Import base list.

Local Open Scope Z_scope.

(** ** Machine integers and status codes *)

(** [uint32_t] arithmetic wraps modulo 2^32. *)
Definition uint32 (z : Z) : Z := z mod 2 ^ 32.

(** [kern_return_t] is a 32-bit signed integer. *)
Definition kern_return_t := Z.

Definition kIOReturnSuccess : kern_return_t := 0.

(** [kIOReturnNoMemory] is 0xE00002BD in the platform's IOReturn.h, read as a
    signed 32-bit value. *)
Definition kIOReturnNoMemory : kern_return_t := 0xE00002BD - 2 ^ 32.

(** ** Constants of the driver (lines 7-19 of the source) *)

Definition kSampleRate : Z := 48000.
Definition kNumChannels : Z := 2.
Definition kBitsPerChannel : Z := 32.
Definition kBytesPerFrame : Z := uint32 (uint32 (kBitsPerChannel / 8) * kNumChannels).
Definition kBufferFrames : Z := 512.

Definition IOUserAudioObjectID := Z.
Definition kDeviceObjectID : IOUserAudioObjectID := 1.
Definition kInputStreamObjectID : IOUserAudioObjectID := 2.
Definition kOutputStreamObjectID : IOUserAudioObjectID := 3.
Definition kVolumeControlObjectID : IOUserAudioObjectID := 4.
Definition kMuteControlObjectID : IOUserAudioObjectID := 5.

(** ** Values of the audio framework used by the driver *)

(** The framework's enumerators, with the values of the platform headers. *)
Definition kIOUserAudioFormatLinearPCM : Z := 0x6C70636D.
Definition kIOUserAudioFormatFlagIsFloat : Z := 1.
Definition kIOUserAudioFormatFlagIsPacked : Z := 8.
Definition kIOUserAudioObjectPropertyElementMain : Z := 0.
Definition kIOMemoryDirectionInOut : Z := 3.

Definition IOUserAudioStartStopFlags := Z.
Definition IOUserAudioStartStopFlags_None : IOUserAudioStartStopFlags := 0.

Inductive IOUserAudioStreamDirection := Output | Input.
Inductive IOUserAudioLevelControlType := Volume.
Inductive IOUserAudioBooleanControlType := Mute.

Definition IOUserAudioStreamDirection_eqb (a b : IOUserAudioStreamDirection) : bool :=
  match a, b with
  | Output, Output | Input, Input => true
  | _, _ => false
  end.

(** The sample rate is a double in the framework; the driver only stores the
    integer constant [kSampleRate] in it. *)
Record IOUserAudioStreamBasicDescription := {
  mSampleRate : Z;
  mFormatID : Z;
  mFormatFlags : Z;
  mBytesPerPacket : Z;
  mFramesPerPacket : Z;
  mBytesPerFrame : Z;
  mChannelsPerFrame : Z;
  mBitsPerChannel : Z
}.

(** Decibel values are the literals -96.0 and 0.0; they are kept as rationals. *)
Record IOUserAudioLevelControlRange := {
  mMinimum : Q;
  mMaximum : Q;
  mElement : Z
}.

(** ** Host-side objects

    Objects created through the framework live in a store and are referred to
    by handles, as the C++ code refers to them by pointer: the device keeps
    the pointers of the streams added to it, so a later change of a stream is
    seen through the device. *)

Definition handle := nat.

Record IOUserAudioDevice := {
  dev_supportsPrewarming : bool;
  dev_uid : string;
  dev_name : option string;
  dev_modelUID : option string;
  dev_manufacturer : option string;
  dev_canBeDefault : bool;
  dev_canBeDefaultForSystemSounds : bool;
  dev_sampleRate : Z;
  dev_zeroTimeStampPeriod : Z;
  dev_streams : list handle;
  dev_controls : list handle;
  dev_ioRunning : bool
}.

Record IOUserAudioStream := {
  str_direction : IOUserAudioStreamDirection;
  str_objectID : IOUserAudioObjectID;
  str_name : option string;
  str_availableFormats : list IOUserAudioStreamBasicDescription;
  str_currentFormat : option IOUserAudioStreamBasicDescription;
  str_ioMemoryDescriptor : option handle
}.

Record IOUserAudioLevelControl := {
  lvl_isSettable : bool;
  lvl_value : Q;
  lvl_range : IOUserAudioLevelControlRange;
  lvl_type : IOUserAudioLevelControlType;
  lvl_objectID : IOUserAudioObjectID
}.

Record IOUserAudioBooleanControl := {
  bln_isSettable : bool;
  bln_value : bool;
  bln_type : IOUserAudioBooleanControlType;
  bln_objectID : IOUserAudioObjectID
}.

Record IOBufferMemoryDescriptor := {
  buf_options : Z;
  buf_capacity : Z;
  buf_alignment : Z
}.

Inductive Obj :=
| ODevice (d : IOUserAudioDevice)
| OStream (s : IOUserAudioStream)
| OLevelControl (c : IOUserAudioLevelControl)
| OBooleanControl (c : IOUserAudioBooleanControl)
| OBuffer (b : IOBufferMemoryDescriptor).

(** ** The driver's instance variables (lines 21-34) *)

Record MacaroniAudioDriver_IVars := {
  audioDevice : option handle;
  inputStream : option handle;
  outputStream : option handle;
  volumeControl : option handle;
  muteControl : option handle;
  inputBuffer : option handle;
  outputBuffer : option handle;
  volumeLevel : Q;
  isMuted : bool;
  isRunning : bool
}.

(** The two out-parameters [IOBufferMemoryDescriptor::Create] is given. *)
Inductive BufferSlot := OutputBufferSlot | InputBufferSlot.

(** ** Calls made by the driver, as recorded in the trace *)

Module Ev.
Inductive Call :=
| super_init
| IONewZero_IVars
| IOSafeDeleteNULL_IVars
| super_free
| super_Start
| super_Stop
| IOUserAudioDevice_Create (supportsPrewarming : bool) (uid : string)
| SetName (o : handle) (s : string)
| SetModelUID (o : handle) (s : string)
| SetManufacturer (o : handle) (s : string)
| SetCanBeDefault (o : handle) (b : bool)
| SetCanBeDefaultForSystemSounds (o : handle) (b : bool)
| SetSampleRate (o : handle) (r : Z)
| SetZeroTimeStampPeriod (o : handle) (p : Z)
| IOUserAudioStream_Create (dir : IOUserAudioStreamDirection) (id : IOUserAudioObjectID)
| SetAvailableStreamFormats (o : handle) (fs : list IOUserAudioStreamBasicDescription)
| SetCurrentStreamFormat (o : handle) (f : IOUserAudioStreamBasicDescription)
| IOUserAudioLevelControl_Create (settable : bool) (v : Q)
    (range : IOUserAudioLevelControlRange) (t : IOUserAudioLevelControlType)
    (id : IOUserAudioObjectID)
| IOUserAudioBooleanControl_Create (settable : bool) (v : bool)
    (t : IOUserAudioBooleanControlType) (id : IOUserAudioObjectID)
| AddStream (o : handle) (s : option handle)
| AddControl (o : handle) (c : option handle)
| AddObject (o : option handle)
| RemoveObject (o : option handle)
| IOBufferMemoryDescriptor_Create (options capacity alignment : Z) (out : BufferSlot)
| SetIOMemoryDescriptor (o : handle) (b : option handle)
| StartIO (o : handle) (flags : IOUserAudioStartStopFlags)
| StopIO (o : handle) (flags : IOUserAudioStartStopFlags)
| RegisterService
| super_NewUserClient (type : Z)
| Release (o : handle).
End Ev.
Abbreviation Call := Ev.Call.

(** The host decides the outcome of every call whose result the driver
    inspects: the status of a call that returns a [kern_return_t], and whether
    a call that returns a pointer or a [bool] succeeds. *)
Record Host := {
  status : Call → kern_return_t;
  succeeds : Call → bool
}.

(** ** State of the model *)

Record Driver := {
  ivars : option MacaroniAudioDriver_IVars;
  heap : list Obj;
  driver_objects : list handle;
  service_registered : bool;
  trace : list Call
}.

Definition with_ivars (iv : option MacaroniAudioDriver_IVars) (d : Driver) : Driver :=
  {| ivars := iv; heap := heap d; driver_objects := driver_objects d;
     service_registered := service_registered d; trace := trace d |}.

Definition with_heap (h : list Obj) (d : Driver) : Driver :=
  {| ivars := ivars d; heap := h; driver_objects := driver_objects d;
     service_registered := service_registered d; trace := trace d |}.

Definition with_driver_objects (os : list handle) (d : Driver) : Driver :=
  {| ivars := ivars d; heap := heap d; driver_objects := os;
     service_registered := service_registered d; trace := trace d |}.

Definition with_service_registered (b : bool) (d : Driver) : Driver :=
  {| ivars := ivars d; heap := heap d; driver_objects := driver_objects d;
     service_registered := b; trace := trace d |}.

Definition with_trace (t : list Call) (d : Driver) : Driver :=
  {| ivars := ivars d; heap := heap d; driver_objects := driver_objects d;
     service_registered := service_registered d; trace := t |}.

(** ** The monad: state, early return, and faults

    [Next a d] continues with value [a]; [Return r d] leaves the method with
    result [r]; [Fault] is a dereference of a null pointer. *)

Inductive Outcome (R A : Type) :=
| Next (a : A) (d : Driver)
| Return (r : R) (d : Driver)
| Fault.
Arguments Next {R A} a d.
Arguments Return {R A} r d.
Arguments Fault {R A}.

Definition M (R A : Type) := Driver → Outcome R A.

Definition pure {R A} (a : A) : M R A := fun d => Next a d.

Definition bind {R A B} (m : M R A) (k : A → M R B) : M R B :=
  fun d => match m d with
           | Next a d' => k a d'
           | Return r d' => Return r d'
           | Fault => Fault
           end.

Definition return_ {R A} (r : R) : M R A := fun d => Return r d.

Definition fault {R A} : M R A := fun _ => Fault.

Declare Scope driver_scope.
Delimit Scope driver_scope with driver.
Notation "x <- m ;; k" := (bind m (fun x => k))
  (at level 100, m at next level, right associativity) : driver_scope.
Notation "m ;; k" := (bind m (fun _ => k))
  (at level 100, right associativity) : driver_scope.
Local Open Scope driver_scope.

(** A method body run to its result; [None] is a fault. *)
Definition run {R} (m : M R R) (d : Driver) : option (R * Driver) :=
  match m d with
  | Next r d' | Return r d' => Some (r, d')
  | Fault => None
  end.

Definition when {R} (b : bool) (m : M R unit) : M R unit :=
  if b then m else pure tt.

Definition modify {R} (f : Driver → Driver) : M R unit :=
  fun d => Next tt (f d).

Definition log {R} (c : Call) : M R unit :=
  modify (fun d => with_trace (trace d ++ [c]) d).

(** A new host object; its handle is the next free position of the store. *)
Definition alloc {R} (o : Obj) : M R handle :=
  fun d => Next (length (heap d)) (with_heap (heap d ++ [o]) d).

(** [ivars->f], for reading and for writing. *)
Definition ivar {R A} (f : MacaroniAudioDriver_IVars → A) : M R A :=
  fun d => match ivars d with
           | Some iv => Next (f iv) d
           | None => Fault
           end.

Definition set_ivars {R} (upd : MacaroniAudioDriver_IVars → MacaroniAudioDriver_IVars)
  : M R unit :=
  fun d => match ivars d with
           | Some iv => Next tt (with_ivars (Some (upd iv)) d)
           | None => Fault
           end.

(** [p->...] on a pointer that may be null. *)
Definition deref {R} (p : option handle) : M R handle :=
  match p with
  | Some h => pure h
  | None => fault
  end.

Definition is_null (p : option handle) : bool :=
  match p with
  | Some _ => false
  | None => true
  end.

(** ** Field updates *)

Definition set_audioDevice (p : option handle) (iv : MacaroniAudioDriver_IVars) :=
  {| audioDevice := p; inputStream := inputStream iv; outputStream := outputStream iv;
     volumeControl := volumeControl iv; muteControl := muteControl iv;
     inputBuffer := inputBuffer iv; outputBuffer := outputBuffer iv;
     volumeLevel := volumeLevel iv; isMuted := isMuted iv; isRunning := isRunning iv |}.

Definition set_inputStream (p : option handle) (iv : MacaroniAudioDriver_IVars) :=
  {| audioDevice := audioDevice iv; inputStream := p; outputStream := outputStream iv;
     volumeControl := volumeControl iv; muteControl := muteControl iv;
     inputBuffer := inputBuffer iv; outputBuffer := outputBuffer iv;
     volumeLevel := volumeLevel iv; isMuted := isMuted iv; isRunning := isRunning iv |}.

Definition set_outputStream (p : option handle) (iv : MacaroniAudioDriver_IVars) :=
  {| audioDevice := audioDevice iv; inputStream := inputStream iv; outputStream := p;
     volumeControl := volumeControl iv; muteControl := muteControl iv;
     inputBuffer := inputBuffer iv; outputBuffer := outputBuffer iv;
     volumeLevel := volumeLevel iv; isMuted := isMuted iv; isRunning := isRunning iv |}.

Definition set_volumeControl (p : option handle) (iv : MacaroniAudioDriver_IVars) :=
  {| audioDevice := audioDevice iv; inputStream := inputStream iv;
     outputStream := outputStream iv;
     volumeControl := p; muteControl := muteControl iv;
     inputBuffer := inputBuffer iv; outputBuffer := outputBuffer iv;
     volumeLevel := volumeLevel iv; isMuted := isMuted iv; isRunning := isRunning iv |}.

Definition set_muteControl (p : option handle) (iv : MacaroniAudioDriver_IVars) :=
  {| audioDevice := audioDevice iv; inputStream := inputStream iv;
     outputStream := outputStream iv;
     volumeControl := volumeControl iv; muteControl := p;
     inputBuffer := inputBuffer iv; outputBuffer := outputBuffer iv;
     volumeLevel := volumeLevel iv; isMuted := isMuted iv; isRunning := isRunning iv |}.

Definition set_inputBuffer (p : option handle) (iv : MacaroniAudioDriver_IVars) :=
  {| audioDevice := audioDevice iv; inputStream := inputStream iv;
     outputStream := outputStream iv;
     volumeControl := volumeControl iv; muteControl := muteControl iv;
     inputBuffer := p; outputBuffer := outputBuffer iv;
     volumeLevel := volumeLevel iv; isMuted := isMuted iv; isRunning := isRunning iv |}.

Definition set_outputBuffer (p : option handle) (iv : MacaroniAudioDriver_IVars) :=
  {| audioDevice := audioDevice iv; inputStream := inputStream iv;
     outputStream := outputStream iv;
     volumeControl := volumeControl iv; muteControl := muteControl iv;
     inputBuffer := inputBuffer iv; outputBuffer := p;
     volumeLevel := volumeLevel iv; isMuted := isMuted iv; isRunning := isRunning iv |}.

Definition set_volumeLevel (v : Q) (iv : MacaroniAudioDriver_IVars) :=
  {| audioDevice := audioDevice iv; inputStream := inputStream iv;
     outputStream := outputStream iv;
     volumeControl := volumeControl iv; muteControl := muteControl iv;
     inputBuffer := inputBuffer iv; outputBuffer := outputBuffer iv;
     volumeLevel := v; isMuted := isMuted iv; isRunning := isRunning iv |}.

Definition set_isMuted (b : bool) (iv : MacaroniAudioDriver_IVars) :=
  {| audioDevice := audioDevice iv; inputStream := inputStream iv;
     outputStream := outputStream iv;
     volumeControl := volumeControl iv; muteControl := muteControl iv;
     inputBuffer := inputBuffer iv; outputBuffer := outputBuffer iv;
     volumeLevel := volumeLevel iv; isMuted := b; isRunning := isRunning iv |}.

Definition set_isRunning (b : bool) (iv : MacaroniAudioDriver_IVars) :=
  {| audioDevice := audioDevice iv; inputStream := inputStream iv;
     outputStream := outputStream iv;
     volumeControl := volumeControl iv; muteControl := muteControl iv;
     inputBuffer := inputBuffer iv; outputBuffer := outputBuffer iv;
     volumeLevel := volumeLevel iv; isMuted := isMuted iv; isRunning := b |}.

Definition update_device (f : IOUserAudioDevice → IOUserAudioDevice) (o : Obj) : Obj :=
  match o with
  | ODevice x => ODevice (f x)
  | _ => o
  end.

Definition update_stream (f : IOUserAudioStream → IOUserAudioStream) (o : Obj) : Obj :=
  match o with
  | OStream x => OStream (f x)
  | _ => o
  end.

Definition dev_set_name (s : string) (x : IOUserAudioDevice) :=
  {| dev_supportsPrewarming := dev_supportsPrewarming x; dev_uid := dev_uid x;
     dev_name := Some s; dev_modelUID := dev_modelUID x;
     dev_manufacturer := dev_manufacturer x; dev_canBeDefault := dev_canBeDefault x;
     dev_canBeDefaultForSystemSounds := dev_canBeDefaultForSystemSounds x;
     dev_sampleRate := dev_sampleRate x;
     dev_zeroTimeStampPeriod := dev_zeroTimeStampPeriod x;
     dev_streams := dev_streams x; dev_controls := dev_controls x;
     dev_ioRunning := dev_ioRunning x |}.

Definition dev_set_modelUID (s : string) (x : IOUserAudioDevice) :=
  {| dev_supportsPrewarming := dev_supportsPrewarming x; dev_uid := dev_uid x;
     dev_name := dev_name x; dev_modelUID := Some s;
     dev_manufacturer := dev_manufacturer x; dev_canBeDefault := dev_canBeDefault x;
     dev_canBeDefaultForSystemSounds := dev_canBeDefaultForSystemSounds x;
     dev_sampleRate := dev_sampleRate x;
     dev_zeroTimeStampPeriod := dev_zeroTimeStampPeriod x;
     dev_streams := dev_streams x; dev_controls := dev_controls x;
     dev_ioRunning := dev_ioRunning x |}.

Definition dev_set_manufacturer (s : string) (x : IOUserAudioDevice) :=
  {| dev_supportsPrewarming := dev_supportsPrewarming x; dev_uid := dev_uid x;
     dev_name := dev_name x; dev_modelUID := dev_modelUID x;
     dev_manufacturer := Some s; dev_canBeDefault := dev_canBeDefault x;
     dev_canBeDefaultForSystemSounds := dev_canBeDefaultForSystemSounds x;
     dev_sampleRate := dev_sampleRate x;
     dev_zeroTimeStampPeriod := dev_zeroTimeStampPeriod x;
     dev_streams := dev_streams x; dev_controls := dev_controls x;
     dev_ioRunning := dev_ioRunning x |}.

Definition dev_set_canBeDefault (b : bool) (x : IOUserAudioDevice) :=
  {| dev_supportsPrewarming := dev_supportsPrewarming x; dev_uid := dev_uid x;
     dev_name := dev_name x; dev_modelUID := dev_modelUID x;
     dev_manufacturer := dev_manufacturer x; dev_canBeDefault := b;
     dev_canBeDefaultForSystemSounds := dev_canBeDefaultForSystemSounds x;
     dev_sampleRate := dev_sampleRate x;
     dev_zeroTimeStampPeriod := dev_zeroTimeStampPeriod x;
     dev_streams := dev_streams x; dev_controls := dev_controls x;
     dev_ioRunning := dev_ioRunning x |}.

Definition dev_set_canBeDefaultForSystemSounds (b : bool) (x : IOUserAudioDevice) :=
  {| dev_supportsPrewarming := dev_supportsPrewarming x; dev_uid := dev_uid x;
     dev_name := dev_name x; dev_modelUID := dev_modelUID x;
     dev_manufacturer := dev_manufacturer x; dev_canBeDefault := dev_canBeDefault x;
     dev_canBeDefaultForSystemSounds := b;
     dev_sampleRate := dev_sampleRate x;
     dev_zeroTimeStampPeriod := dev_zeroTimeStampPeriod x;
     dev_streams := dev_streams x; dev_controls := dev_controls x;
     dev_ioRunning := dev_ioRunning x |}.

Definition dev_set_sampleRate (r : Z) (x : IOUserAudioDevice) :=
  {| dev_supportsPrewarming := dev_supportsPrewarming x; dev_uid := dev_uid x;
     dev_name := dev_name x; dev_modelUID := dev_modelUID x;
     dev_manufacturer := dev_manufacturer x; dev_canBeDefault := dev_canBeDefault x;
     dev_canBeDefaultForSystemSounds := dev_canBeDefaultForSystemSounds x;
     dev_sampleRate := r;
     dev_zeroTimeStampPeriod := dev_zeroTimeStampPeriod x;
     dev_streams := dev_streams x; dev_controls := dev_controls x;
     dev_ioRunning := dev_ioRunning x |}.

Definition dev_set_zeroTimeStampPeriod (p : Z) (x : IOUserAudioDevice) :=
  {| dev_supportsPrewarming := dev_supportsPrewarming x; dev_uid := dev_uid x;
     dev_name := dev_name x; dev_modelUID := dev_modelUID x;
     dev_manufacturer := dev_manufacturer x; dev_canBeDefault := dev_canBeDefault x;
     dev_canBeDefaultForSystemSounds := dev_canBeDefaultForSystemSounds x;
     dev_sampleRate := dev_sampleRate x;
     dev_zeroTimeStampPeriod := p;
     dev_streams := dev_streams x; dev_controls := dev_controls x;
     dev_ioRunning := dev_ioRunning x |}.

Definition dev_set_streams (l : list handle) (x : IOUserAudioDevice) :=
  {| dev_supportsPrewarming := dev_supportsPrewarming x; dev_uid := dev_uid x;
     dev_name := dev_name x; dev_modelUID := dev_modelUID x;
     dev_manufacturer := dev_manufacturer x; dev_canBeDefault := dev_canBeDefault x;
     dev_canBeDefaultForSystemSounds := dev_canBeDefaultForSystemSounds x;
     dev_sampleRate := dev_sampleRate x;
     dev_zeroTimeStampPeriod := dev_zeroTimeStampPeriod x;
     dev_streams := l; dev_controls := dev_controls x;
     dev_ioRunning := dev_ioRunning x |}.

Definition dev_set_controls (l : list handle) (x : IOUserAudioDevice) :=
  {| dev_supportsPrewarming := dev_supportsPrewarming x; dev_uid := dev_uid x;
     dev_name := dev_name x; dev_modelUID := dev_modelUID x;
     dev_manufacturer := dev_manufacturer x; dev_canBeDefault := dev_canBeDefault x;
     dev_canBeDefaultForSystemSounds := dev_canBeDefaultForSystemSounds x;
     dev_sampleRate := dev_sampleRate x;
     dev_zeroTimeStampPeriod := dev_zeroTimeStampPeriod x;
     dev_streams := dev_streams x; dev_controls := l;
     dev_ioRunning := dev_ioRunning x |}.

Definition dev_set_ioRunning (b : bool) (x : IOUserAudioDevice) :=
  {| dev_supportsPrewarming := dev_supportsPrewarming x; dev_uid := dev_uid x;
     dev_name := dev_name x; dev_modelUID := dev_modelUID x;
     dev_manufacturer := dev_manufacturer x; dev_canBeDefault := dev_canBeDefault x;
     dev_canBeDefaultForSystemSounds := dev_canBeDefaultForSystemSounds x;
     dev_sampleRate := dev_sampleRate x;
     dev_zeroTimeStampPeriod := dev_zeroTimeStampPeriod x;
     dev_streams := dev_streams x; dev_controls := dev_controls x;
     dev_ioRunning := b |}.

Definition str_set_name (s : string) (x : IOUserAudioStream) :=
  {| str_direction := str_direction x; str_objectID := str_objectID x;
     str_name := Some s; str_availableFormats := str_availableFormats x;
     str_currentFormat := str_currentFormat x;
     str_ioMemoryDescriptor := str_ioMemoryDescriptor x |}.

Definition str_set_availableFormats (fs : list IOUserAudioStreamBasicDescription)
    (x : IOUserAudioStream) :=
  {| str_direction := str_direction x; str_objectID := str_objectID x;
     str_name := str_name x; str_availableFormats := fs;
     str_currentFormat := str_currentFormat x;
     str_ioMemoryDescriptor := str_ioMemoryDescriptor x |}.

Definition str_set_currentFormat (f : IOUserAudioStreamBasicDescription)
    (x : IOUserAudioStream) :=
  {| str_direction := str_direction x; str_objectID := str_objectID x;
     str_name := str_name x; str_availableFormats := str_availableFormats x;
     str_currentFormat := Some f;
     str_ioMemoryDescriptor := str_ioMemoryDescriptor x |}.

Definition str_set_ioMemoryDescriptor (b : option handle) (x : IOUserAudioStream) :=
  {| str_direction := str_direction x; str_objectID := str_objectID x;
     str_name := str_name x; str_availableFormats := str_availableFormats x;
     str_currentFormat := str_currentFormat x;
     str_ioMemoryDescriptor := b |}.

(** ** The audio framework, as the driver uses it

    Each operation records its call.  A factory returns a null pointer when
    the host refuses; a call whose status the driver checks has its effect on
    the host-side object only when that status is [kIOReturnSuccess]; a call
    whose result the driver discards (the property setters, [StopIO],
    [RemoveObject], [RegisterService]) is taken to have its effect.  A string
    built by [OSString::withCString] is the string itself. *)

Section Framework.
Context {R : Type}.
Variable host : Host.

Definition succeeded (ret : kern_return_t) : bool := Z.eqb ret kIOReturnSuccess.

Definition update_object (o : handle) (f : Obj → Obj) : M R unit :=
  modify (fun d => with_heap (alter f o (heap d)) d).

(** A factory call returning a pointer. *)
Definition create (c : Call) (o : Obj) : M R (option handle) :=
  log c ;;
  if succeeds host c then (h <- alloc o ;; pure (Some h)) else pure None.

(** A call returning a status, with its effect on success. *)
Definition call (c : Call) (effect : M R unit) : M R kern_return_t :=
  log c ;;
  when (succeeded (status host c)) effect ;;
  pure (status host c).

Definition IOUserAudioDevice_Create (supportsPrewarming : bool) (uid : string)
  : M R (option handle) :=
  create (Ev.IOUserAudioDevice_Create supportsPrewarming uid)
    (ODevice {| dev_supportsPrewarming := supportsPrewarming; dev_uid := uid;
                dev_name := None; dev_modelUID := None; dev_manufacturer := None;
                dev_canBeDefault := false; dev_canBeDefaultForSystemSounds := false;
                dev_sampleRate := 0; dev_zeroTimeStampPeriod := 0;
                dev_streams := []; dev_controls := []; dev_ioRunning := false |}).

Definition IOUserAudioStream_Create (dir : IOUserAudioStreamDirection)
    (id : IOUserAudioObjectID) : M R (option handle) :=
  create (Ev.IOUserAudioStream_Create dir id)
    (OStream {| str_direction := dir; str_objectID := id; str_name := None;
                str_availableFormats := []; str_currentFormat := None;
                str_ioMemoryDescriptor := None |}).

Definition IOUserAudioLevelControl_Create (settable : bool) (v : Q)
    (range : IOUserAudioLevelControlRange) (t : IOUserAudioLevelControlType)
    (id : IOUserAudioObjectID) : M R (option handle) :=
  create (Ev.IOUserAudioLevelControl_Create settable v range t id)
    (OLevelControl {| lvl_isSettable := settable; lvl_value := v; lvl_range := range;
                      lvl_type := t; lvl_objectID := id |}).

Definition IOUserAudioBooleanControl_Create (settable : bool) (v : bool)
    (t : IOUserAudioBooleanControlType) (id : IOUserAudioObjectID)
  : M R (option handle) :=
  create (Ev.IOUserAudioBooleanControl_Create settable v t id)
    (OBooleanControl {| bln_isSettable := settable; bln_value := v; bln_type := t;
                        bln_objectID := id |}).

(** [SetName] is a method of every audio object; the driver names the device
    and the streams. *)
Definition SetName (o : handle) (s : string) : M R unit :=
  log (Ev.SetName o s) ;;
  update_object o (fun x => update_stream (str_set_name s)
                              (update_device (dev_set_name s) x)).

Definition SetModelUID (o : handle) (s : string) : M R unit :=
  log (Ev.SetModelUID o s) ;;
  update_object o (update_device (dev_set_modelUID s)).

Definition SetManufacturer (o : handle) (s : string) : M R unit :=
  log (Ev.SetManufacturer o s) ;;
  update_object o (update_device (dev_set_manufacturer s)).

Definition SetCanBeDefault (o : handle) (b : bool) : M R unit :=
  log (Ev.SetCanBeDefault o b) ;;
  update_object o (update_device (dev_set_canBeDefault b)).

Definition SetCanBeDefaultForSystemSounds (o : handle) (b : bool) : M R unit :=
  log (Ev.SetCanBeDefaultForSystemSounds o b) ;;
  update_object o (update_device (dev_set_canBeDefaultForSystemSounds b)).

Definition SetSampleRate (o : handle) (r : Z) : M R unit :=
  log (Ev.SetSampleRate o r) ;;
  update_object o (update_device (dev_set_sampleRate r)).

Definition SetZeroTimeStampPeriod (o : handle) (p : Z) : M R unit :=
  log (Ev.SetZeroTimeStampPeriod o p) ;;
  update_object o (update_device (dev_set_zeroTimeStampPeriod p)).

Definition SetAvailableStreamFormats (o : handle)
    (fs : list IOUserAudioStreamBasicDescription) : M R unit :=
  log (Ev.SetAvailableStreamFormats o fs) ;;
  update_object o (update_stream (str_set_availableFormats fs)).

Definition SetCurrentStreamFormat (o : handle) (f : IOUserAudioStreamBasicDescription)
  : M R unit :=
  log (Ev.SetCurrentStreamFormat o f) ;;
  update_object o (update_stream (str_set_currentFormat f)).

Definition AddStream (o : handle) (s : option handle) : M R kern_return_t :=
  call (Ev.AddStream o s)
    (update_object o (update_device (fun x =>
       dev_set_streams (dev_streams x ++ option_list s) x))).

Definition AddControl (o : handle) (c : option handle) : M R kern_return_t :=
  call (Ev.AddControl o c)
    (update_object o (update_device (fun x =>
       dev_set_controls (dev_controls x ++ option_list c) x))).

Definition AddObject (o : option handle) : M R kern_return_t :=
  call (Ev.AddObject o)
    (modify (fun d => with_driver_objects (driver_objects d ++ option_list o) d)).

Definition RemoveObject (o : option handle) : M R unit :=
  log (Ev.RemoveObject o) ;;
  modify (fun d =>
    with_driver_objects
      (filter (fun h => Some h ≠ o) (driver_objects d)) d).

Definition SetIOMemoryDescriptor (o : handle) (b : option handle) : M R kern_return_t :=
  call (Ev.SetIOMemoryDescriptor o b)
    (update_object o (update_stream (str_set_ioMemoryDescriptor b))).

Definition StartIO (o : handle) (flags : IOUserAudioStartStopFlags) : M R kern_return_t :=
  call (Ev.StartIO o flags) (update_object o (update_device (dev_set_ioRunning true))).

Definition StopIO (o : handle) (flags : IOUserAudioStartStopFlags) : M R unit :=
  log (Ev.StopIO o flags) ;;
  update_object o (update_device (dev_set_ioRunning false)).

Definition RegisterService : M R unit :=
  log Ev.RegisterService ;;
  modify (with_service_registered true).

(** [OSSharedPtr::reset] and the release done by an assignment: the object
    held before, if any, is released. *)
Definition release (p : option handle) : M R unit :=
  match p with
  | Some h => log (Ev.Release h)
  | None => pure tt
  end.

Definition assign (field : MacaroniAudioDriver_IVars → option handle)
    (set : option handle → MacaroniAudioDriver_IVars → MacaroniAudioDriver_IVars)
    (p : option handle) : M R unit :=
  old <- ivar field ;;
  release old ;;
  set_ivars (set p).

Definition reset (field : MacaroniAudioDriver_IVars → option handle)
    (set : option handle → MacaroniAudioDriver_IVars → MacaroniAudioDriver_IVars)
  : M R unit :=
  assign field set None.

Definition slot_field (out : BufferSlot) : MacaroniAudioDriver_IVars → option handle :=
  match out with
  | OutputBufferSlot => outputBuffer
  | InputBufferSlot => inputBuffer
  end.

Definition slot_set (out : BufferSlot)
  : option handle → MacaroniAudioDriver_IVars → MacaroniAudioDriver_IVars :=
  match out with
  | OutputBufferSlot => set_outputBuffer
  | InputBufferSlot => set_inputBuffer
  end.

(** [IOBufferMemoryDescriptor::Create(options, capacity, alignment,
    ivars->slot.attach())]: [attach] resets the slot before the call, and the
    new buffer is stored in it when the call succeeds. *)
Definition IOBufferMemoryDescriptor_Create (options capacity alignment : Z)
    (out : BufferSlot) : M R kern_return_t :=
  reset (slot_field out) (slot_set out) ;;
  call (Ev.IOBufferMemoryDescriptor_Create options capacity alignment out)
    (h <- alloc (OBuffer {| buf_options := options; buf_capacity := capacity;
                            buf_alignment := alignment |}) ;;
     set_ivars (slot_set out (Some h))).

End Framework.

(** ** Helpers for method bodies *)

(** [if (b) return r;] *)
Definition return_when {R} (b : bool) (r : R) : M R unit :=
  if b then return_ r else pure tt.

(** [ivars == nullptr] *)
Definition ivars_is_null {R} : M R bool :=
  fun d => Next (match ivars d with Some _ => false | None => true end) d.

(** [ivars->field->method(...)] *)
Definition via {R A} (field : MacaroniAudioDriver_IVars → option handle)
    (method : handle → M R A) : M R A :=
  p <- ivar field ;;
  o <- deref p ;;
  method o.

(** ** [MacaroniAudioDriver::init] (lines 36-52) *)

Definition IVars_zero : MacaroniAudioDriver_IVars :=
  {| audioDevice := None; inputStream := None; outputStream := None;
     volumeControl := None; muteControl := None;
     inputBuffer := None; outputBuffer := None;
     volumeLevel := 0; isMuted := false; isRunning := false |}.

Definition init (host : Host) : M bool bool :=
  log Ev.super_init ;;
  return_when (negb (succeeds host Ev.super_init)) false ;;
  log Ev.IONewZero_IVars ;;
  modify (with_ivars (if succeeds host Ev.IONewZero_IVars then Some IVars_zero else None)) ;;
  null <- ivars_is_null ;;
  return_when null false ;;
  set_ivars (set_volumeLevel 1) ;;
  set_ivars (set_isMuted false) ;;
  set_ivars (set_isRunning false) ;;
  return_ true.

(** ** [MacaroniAudioDriver::free] (lines 54-67) *)

Definition free : M unit unit :=
  null <- ivars_is_null ;;
  when (negb null)
    (reset audioDevice set_audioDevice ;;
     reset inputStream set_inputStream ;;
     reset outputStream set_outputStream ;;
     reset volumeControl set_volumeControl ;;
     reset muteControl set_muteControl ;;
     reset inputBuffer set_inputBuffer ;;
     reset outputBuffer set_outputBuffer ;;
     log Ev.IOSafeDeleteNULL_IVars ;;
     modify (with_ivars None)) ;;
  log Ev.super_free.

(** ** [MacaroniAudioDriver::Start] (lines 69-225) *)

Definition format : IOUserAudioStreamBasicDescription :=
  {| mSampleRate := kSampleRate;
     mFormatID := kIOUserAudioFormatLinearPCM;
     mFormatFlags := Z.lor kIOUserAudioFormatFlagIsFloat kIOUserAudioFormatFlagIsPacked;
     mBytesPerPacket := kBytesPerFrame;
     mFramesPerPacket := 1;
     mBytesPerFrame := kBytesPerFrame;
     mChannelsPerFrame := kNumChannels;
     mBitsPerChannel := kBitsPerChannel |}.

Definition volumeRange : IOUserAudioLevelControlRange :=
  {| mMinimum := -96; mMaximum := 0; mElement := kIOUserAudioObjectPropertyElementMain |}.

Definition bufferSize : Z := uint32 (kBufferFrames * kBytesPerFrame).

Definition deviceName : string := "Macaroni Audio".
Definition deviceUID : string := "com.macaroni.audio.device".
Definition modelUID : string := "com.macaroni.audio.model".
Definition manufacturer : string := "Macaroni".
Definition outputStreamName : string := "Macaroni Output".
Definition inputStreamName : string := "Macaroni Input".

Definition Start (host : Host) : M kern_return_t kern_return_t :=
  ret <- call host Ev.super_Start (pure tt) ;;
  return_when (negb (succeeded ret)) ret ;;
  (* Create the audio device *)
  p <- IOUserAudioDevice_Create host false deviceUID ;;
  assign audioDevice set_audioDevice p ;;
  p <- ivar audioDevice ;;
  return_when (is_null p) kIOReturnNoMemory ;;
  (* Set device properties *)
  via audioDevice (fun o => SetName o deviceName) ;;
  via audioDevice (fun o => SetModelUID o modelUID) ;;
  via audioDevice (fun o => SetManufacturer o manufacturer) ;;
  via audioDevice (fun o => SetCanBeDefault o true) ;;
  via audioDevice (fun o => SetCanBeDefaultForSystemSounds o true) ;;
  via audioDevice (fun o => SetSampleRate o kSampleRate) ;;
  via audioDevice (fun o => SetZeroTimeStampPeriod o kBufferFrames) ;;
  (* Create output stream *)
  p <- IOUserAudioStream_Create host Output kOutputStreamObjectID ;;
  assign outputStream set_outputStream p ;;
  p <- ivar outputStream ;;
  return_when (is_null p) kIOReturnNoMemory ;;
  via outputStream (fun o => SetName o outputStreamName) ;;
  via outputStream (fun o => SetAvailableStreamFormats o [format]) ;;
  via outputStream (fun o => SetCurrentStreamFormat o format) ;;
  (* Create input stream *)
  p <- IOUserAudioStream_Create host Input kInputStreamObjectID ;;
  assign inputStream set_inputStream p ;;
  p <- ivar inputStream ;;
  return_when (is_null p) kIOReturnNoMemory ;;
  via inputStream (fun o => SetName o inputStreamName) ;;
  via inputStream (fun o => SetAvailableStreamFormats o [format]) ;;
  via inputStream (fun o => SetCurrentStreamFormat o format) ;;
  (* Create volume control *)
  p <- IOUserAudioLevelControl_Create host true 0 volumeRange Volume
         kVolumeControlObjectID ;;
  assign volumeControl set_volumeControl p ;;
  p <- ivar volumeControl ;;
  return_when (is_null p) kIOReturnNoMemory ;;
  (* Create mute control *)
  p <- IOUserAudioBooleanControl_Create host true false Mute kMuteControlObjectID ;;
  assign muteControl set_muteControl p ;;
  p <- ivar muteControl ;;
  return_when (is_null p) kIOReturnNoMemory ;;
  (* Add streams and controls to device *)
  s <- ivar outputStream ;;
  ret <- via audioDevice (fun o => AddStream host o s) ;;
  return_when (negb (succeeded ret)) ret ;;
  s <- ivar inputStream ;;
  ret <- via audioDevice (fun o => AddStream host o s) ;;
  return_when (negb (succeeded ret)) ret ;;
  c <- ivar volumeControl ;;
  ret <- via audioDevice (fun o => AddControl host o c) ;;
  return_when (negb (succeeded ret)) ret ;;
  c <- ivar muteControl ;;
  ret <- via audioDevice (fun o => AddControl host o c) ;;
  return_when (negb (succeeded ret)) ret ;;
  (* Add device to driver *)
  p <- ivar audioDevice ;;
  ret <- AddObject host p ;;
  return_when (negb (succeeded ret)) ret ;;
  (* Create IO buffers *)
  ret <- IOBufferMemoryDescriptor_Create host kIOMemoryDirectionInOut bufferSize 0
           OutputBufferSlot ;;
  return_when (negb (succeeded ret)) ret ;;
  ret <- IOBufferMemoryDescriptor_Create host kIOMemoryDirectionInOut bufferSize 0
           InputBufferSlot ;;
  return_when (negb (succeeded ret)) ret ;;
  (* Set buffers on streams *)
  b <- ivar outputBuffer ;;
  ret <- via outputStream (fun o => SetIOMemoryDescriptor host o b) ;;
  return_when (negb (succeeded ret)) ret ;;
  b <- ivar inputBuffer ;;
  ret <- via inputStream (fun o => SetIOMemoryDescriptor host o b) ;;
  return_when (negb (succeeded ret)) ret ;;
  (* Activate device *)
  ret <- via audioDevice (fun o => StartIO host o IOUserAudioStartStopFlags_None) ;;
  return_when (negb (succeeded ret)) ret ;;
  RegisterService ;;
  return_ kIOReturnSuccess.

(** ** [MacaroniAudioDriver::Stop] (lines 227-234) *)

Definition Stop (host : Host) : M kern_return_t kern_return_t :=
  p <- ivar audioDevice ;;
  when (negb (is_null p))
    (via audioDevice (fun o => StopIO o IOUserAudioStartStopFlags_None) ;;
     p <- ivar audioDevice ;;
     RemoveObject p) ;;
  ret <- call host Ev.super_Stop (pure tt) ;;
  return_ ret.

(** ** [MacaroniAudioDriver::NewUserClient] (lines 236-239) *)

Definition NewUserClient (host : Host) (type : Z) : M kern_return_t kern_return_t :=
  ret <- call host (Ev.super_NewUserClient type) (pure tt) ;;
  return_ ret.

(** ** The host's notifications (lines 241-275) *)

Definition StartDevice (in_object_id : IOUserAudioObjectID)
    (in_flags : IOUserAudioStartStopFlags) : M kern_return_t kern_return_t :=
  set_ivars (set_isRunning true) ;;
  return_ kIOReturnSuccess.

Definition StopDevice (in_object_id : IOUserAudioObjectID)
    (in_flags : IOUserAudioStartStopFlags) : M kern_return_t kern_return_t :=
  set_ivars (set_isRunning false) ;;
  return_ kIOReturnSuccess.

Definition PerformDeviceConfigurationChange (in_object_id : IOUserAudioObjectID)
    (in_change_action : Z) (in_change_info : option handle)
  : M kern_return_t kern_return_t :=
  return_ kIOReturnSuccess.

Definition AbortDeviceConfigurationChange (in_object_id : IOUserAudioObjectID)
    (in_change_action : Z) (in_change_info : option handle)
  : M kern_return_t kern_return_t :=
  return_ kIOReturnSuccess.

Definition HandleChangedStreamFormat (in_object_id : IOUserAudioObjectID)
    (in_stream : option handle)
    (in_old_format in_new_format : option IOUserAudioStreamBasicDescription)
  : M kern_return_t kern_return_t :=
  return_ kIOReturnSuccess.

(** ** Runs on concrete states *)

Definition fresh_driver : Driver :=
  {| ivars := None; heap := []; driver_objects := []; service_registered := false;
     trace := [] |}.

(** A host that lets every call succeed. *)
Definition host_ok : Host :=
  {| status := fun _ => kIOReturnSuccess; succeeds := fun _ => true |}.

(** ** Observations on a state *)

(** The objects held by the [ivars] block, in the order of its fields. *)
Definition owned (iv : MacaroniAudioDriver_IVars) : list handle :=
  option_list (audioDevice iv) ++ option_list (inputStream iv) ++
  option_list (outputStream iv) ++ option_list (volumeControl iv) ++
  option_list (muteControl iv) ++ option_list (inputBuffer iv) ++
  option_list (outputBuffer iv).

Definition owned_objects (d : Driver) : list handle :=
  match ivars d with
  | Some iv => owned iv
  | None => []
  end.

Definition lookup_device (d : Driver) (h : handle) : option IOUserAudioDevice :=
  match heap d !! h with
  | Some (ODevice x) => Some x
  | _ => None
  end.

Definition lookup_stream (d : Driver) (h : handle) : option IOUserAudioStream :=
  match heap d !! h with
  | Some (OStream x) => Some x
  | _ => None
  end.

Definition lookup_level_control (d : Driver) (h : handle)
  : option IOUserAudioLevelControl :=
  match heap d !! h with
  | Some (OLevelControl x) => Some x
  | _ => None
  end.

Definition lookup_buffer (d : Driver) (h : handle) : option IOBufferMemoryDescriptor :=
  match heap d !! h with
  | Some (OBuffer x) => Some x
  | _ => None
  end.

(** The device of the driver, when it has one. *)
Definition the_device (d : Driver) : option IOUserAudioDevice :=
  match ivars d with
  | Some iv =>
      match audioDevice iv with
      | Some h => lookup_device d h
      | None => None
      end
  | None => None
  end.

(** The streams a device reports, in a given direction. *)
Definition streams_of (d : Driver) (dev : IOUserAudioDevice)
    (dir : IOUserAudioStreamDirection) : list IOUserAudioStream :=
  List.filter (fun s => IOUserAudioStreamDirection_eqb (str_direction s) dir)
    (omap (lookup_stream d) (dev_streams dev)).

(** The handles released in a trace, in order. *)
Definition releases (tr : list Call) : list handle :=
  omap (fun c => match c with Ev.Release h => Some h | _ => None end) tr.

(** The calls that stop, withdraw or release an object. *)
Definition is_teardown (c : Call) : bool :=
  match c with
  | Ev.StopIO _ _ | Ev.RemoveObject _ | Ev.Release _ => true
  | _ => false
  end.

Definition is_SetIOMemoryDescriptor (c : Call) : bool :=
  match c with
  | Ev.SetIOMemoryDescriptor _ _ => true
  | _ => false
  end.

(** ** The order of [Start], as a table

    One row per framework call of [Start], in program order: the step of the
    specification's list it belongs to (0 for the call of the superclass),
    the call, and how [Start] checks it.  The [k]-th object created by the
    call has handle [n + k], [n] being the size of the store at entry. *)

Inductive Check := Unchecked | CheckStatus | CheckPointer.

Definition Start_steps (n : nat) : list (nat * Call * Check) :=
  let dev := (n + 0)%nat in
  let out := (n + 1)%nat in
  let inp := (n + 2)%nat in
  let vol := (n + 3)%nat in
  let mut := (n + 4)%nat in
  let obuf := (n + 5)%nat in
  let ibuf := (n + 6)%nat in
  [ (0, Ev.super_Start, CheckStatus);
    (1, Ev.IOUserAudioDevice_Create false deviceUID, CheckPointer);
    (1, Ev.SetName dev deviceName, Unchecked);
    (1, Ev.SetModelUID dev modelUID, Unchecked);
    (1, Ev.SetManufacturer dev manufacturer, Unchecked);
    (1, Ev.SetCanBeDefault dev true, Unchecked);
    (1, Ev.SetCanBeDefaultForSystemSounds dev true, Unchecked);
    (1, Ev.SetSampleRate dev kSampleRate, Unchecked);
    (1, Ev.SetZeroTimeStampPeriod dev kBufferFrames, Unchecked);
    (3, Ev.IOUserAudioStream_Create Output kOutputStreamObjectID, CheckPointer);
    (3, Ev.SetName out outputStreamName, Unchecked);
    (3, Ev.SetAvailableStreamFormats out [format], Unchecked);
    (3, Ev.SetCurrentStreamFormat out format, Unchecked);
    (4, Ev.IOUserAudioStream_Create Input kInputStreamObjectID, CheckPointer);
    (4, Ev.SetName inp inputStreamName, Unchecked);
    (4, Ev.SetAvailableStreamFormats inp [format], Unchecked);
    (4, Ev.SetCurrentStreamFormat inp format, Unchecked);
    (5, Ev.IOUserAudioLevelControl_Create true 0 volumeRange Volume
          kVolumeControlObjectID, CheckPointer);
    (5, Ev.IOUserAudioBooleanControl_Create true false Mute kMuteControlObjectID,
        CheckPointer);
    (6, Ev.AddStream dev (Some out), CheckStatus);
    (6, Ev.AddStream dev (Some inp), CheckStatus);
    (6, Ev.AddControl dev (Some vol), CheckStatus);
    (6, Ev.AddControl dev (Some mut), CheckStatus);
    (7, Ev.AddObject (Some dev), CheckStatus);
    (8, Ev.IOBufferMemoryDescriptor_Create kIOMemoryDirectionInOut bufferSize 0
          OutputBufferSlot, CheckStatus);
    (8, Ev.IOBufferMemoryDescriptor_Create kIOMemoryDirectionInOut bufferSize 0
          InputBufferSlot, CheckStatus);
    (9, Ev.SetIOMemoryDescriptor out (Some obuf), CheckStatus);
    (9, Ev.SetIOMemoryDescriptor inp (Some ibuf), CheckStatus);
    (10, Ev.StartIO dev IOUserAudioStartStopFlags_None, CheckStatus);
    (11, Ev.RegisterService, Unchecked) ]%nat.

(** Whether a call passes its check, and the status [Start] returns when it
    does not. *)
Definition passes (host : Host) (c : Call) (k : Check) : bool :=
  match k with
  | Unchecked => true
  | CheckStatus => succeeded (status host c)
  | CheckPointer => succeeds host c
  end.

Definition failure_status (host : Host) (c : Call) (k : Check) : kern_return_t :=
  match k with
  | Unchecked => kIOReturnSuccess
  | CheckStatus => status host c
  | CheckPointer => kIOReturnNoMemory
  end.

(** The calls made: the rows up to and including the first that fails. *)
Fixpoint executed (host : Host) (steps : list (nat * Call * Check)) : list Call :=
  match steps with
  | [] => []
  | (_, c, k) :: rest => c :: (if passes host c k then executed host rest else [])
  end.

(** The status returned: that of the first row that fails. *)
Fixpoint result (host : Host) (steps : list (nat * Call * Check)) : kern_return_t :=
  match steps with
  | [] => kIOReturnSuccess
  | (_, c, k) :: rest =>
      if passes host c k then result host rest else failure_status host c k
  end.

(** The step numbers of a table never decrease. *)
Fixpoint steps_in_order (last : nat) (steps : list (nat * Call * Check)) : bool :=
  match steps with
  | [] => true
  | (i, _, _) :: rest => Nat.leb last i && steps_in_order i rest
  end.

(** ** The state [Start] leaves when every call succeeds *)

Definition Start_objects (n : nat) : list Obj :=
  [ ODevice {| dev_supportsPrewarming := false; dev_uid := deviceUID;
               dev_name := Some deviceName; dev_modelUID := Some modelUID;
               dev_manufacturer := Some manufacturer; dev_canBeDefault := true;
               dev_canBeDefaultForSystemSounds := true;
               dev_sampleRate := kSampleRate;
               dev_zeroTimeStampPeriod := kBufferFrames;
               dev_streams := [n + 1; n + 2]%nat;
               dev_controls := [n + 3; n + 4]%nat;
               dev_ioRunning := true |};
    OStream {| str_direction := Output; str_objectID := kOutputStreamObjectID;
               str_name := Some outputStreamName;
               str_availableFormats := [format]; str_currentFormat := Some format;
               str_ioMemoryDescriptor := Some (n + 5)%nat |};
    OStream {| str_direction := Input; str_objectID := kInputStreamObjectID;
               str_name := Some inputStreamName;
               str_availableFormats := [format]; str_currentFormat := Some format;
               str_ioMemoryDescriptor := Some (n + 6)%nat |};
    OLevelControl {| lvl_isSettable := true; lvl_value := 0; lvl_range := volumeRange;
                     lvl_type := Volume; lvl_objectID := kVolumeControlObjectID |};
    OBooleanControl {| bln_isSettable := true; bln_value := false; bln_type := Mute;
                       bln_objectID := kMuteControlObjectID |};
    OBuffer {| buf_options := kIOMemoryDirectionInOut; buf_capacity := bufferSize;
               buf_alignment := 0 |};
    OBuffer {| buf_options := kIOMemoryDirectionInOut; buf_capacity := bufferSize;
               buf_alignment := 0 |} ].

Definition Start_final (d : Driver) (iv : MacaroniAudioDriver_IVars) : Driver :=
  let n := length (heap d) in
  {| ivars := Some {| audioDevice := Some (n + 0)%nat;
                      inputStream := Some (n + 2)%nat;
                      outputStream := Some (n + 1)%nat;
                      volumeControl := Some (n + 3)%nat;
                      muteControl := Some (n + 4)%nat;
                      inputBuffer := Some (n + 6)%nat;
                      outputBuffer := Some (n + 5)%nat;
                      volumeLevel := volumeLevel iv;
                      isMuted := isMuted iv;
                      isRunning := isRunning iv |};
     heap := heap d ++ Start_objects n;
     driver_objects := driver_objects d ++ [(n + 0)%nat];
     service_registered := true;
     trace := trace d ++ map (fun s => snd (fst s)) (Start_steps n) |}.

(** What holds when [Start], entered with an [ivars] block [iv] that holds no
    object, returns [r] in state [d']. *)
Definition Start_post (host : Host) (d : Driver) (iv : MacaroniAudioDriver_IVars)
    (r : kern_return_t) (d' : Driver) : Prop :=
  let steps := Start_steps (length (heap d)) in
  r = result host steps ∧
  trace d' = trace d ++ executed host steps ∧
  (∀ h, h ∈ owned_objects d' ↔ (length (heap d) ≤ h < length (heap d'))%nat) ∧
  (∀ dev, the_device d' = Some dev →
     Forall (fun s => str_currentFormat s = Some format ∧
                      str_availableFormats s = [format])
       (omap (lookup_stream d') (dev_streams dev))) ∧
  (r = kIOReturnSuccess → d' = Start_final d iv).

(** ** Concrete hosts and states *)

(** The state [init] leaves when the host lets it succeed. *)
Definition initialized : Driver :=
  {| ivars := Some (set_volumeLevel 1 IVars_zero); heap := [];
     driver_objects := []; service_registered := false;
     trace := [Ev.super_init; Ev.IONewZero_IVars] |}.

(** A host that refuses to create the input stream and grants the rest. *)
Definition host_without_input_stream : Host :=
  {| status := fun _ => kIOReturnSuccess;
     succeeds := fun c =>
       match c with
       | Ev.IOUserAudioStream_Create Input _ => false
       | _ => true
       end |}.

(** A host whose superclass fails [Stop] with the status 1 and that grants
    the rest. *)
Definition host_failing_super_Stop : Host :=
  {| status := fun c =>
       match c with
       | Ev.super_Stop => 1
       | _ => kIOReturnSuccess
       end;
     succeeds := fun _ => true |}.

(** The state of a driver after [m], or the state itself on a fault. *)
Definition state_after {R} (m : M R R) (d : Driver) : Driver :=
  match run m d with
  | Some (_, d') => d'
  | None => d
  end.

Definition status_after {R} (m : M R R) (d : Driver) : option R :=
  match run m d with
  | Some (r, _) => Some r
  | None => None
  end.

(** The calls a method adds to the trace of [d]. *)
Definition calls_of {R} (m : M R R) (d : Driver) : list Call :=
  drop (length (trace d)) (trace (state_after m d)).

(** The calls of a trace that come before the first one satisfying [p]. *)
Fixpoint calls_before (p : Call → bool) (tr : list Call) : list Call :=
  match tr with
  | [] => []
  | c :: rest => if p c then [] else c :: calls_before p rest
  end.

Definition is_input_stream_Create (c : Call) : bool :=
  match c with
  | Ev.IOUserAudioStream_Create Input _ => true
  | _ => false
  end.

(** The objects created between two states, in the order of their creation:
    the store only grows, at its end. *)
Definition created_between (d d' : Driver) : list handle :=
  seq (length (heap d)) (length (heap d') - length (heap d)).

(** ** The level control's set operation *)

Inductive StatusCode := Success | InvalidControlValue.

Definition lvl_set_value (v : Q) (c : IOUserAudioLevelControl) :=
  {| lvl_isSettable := lvl_isSettable c; lvl_value := v; lvl_range := lvl_range c;
     lvl_type := lvl_type c; lvl_objectID := lvl_objectID c |}.

(** Modelled from the spec: the "set value" operation of a level control,
    which belongs to the host's audio framework and is not part of the
    driver's source.  It validates the new value against the range of the
    control before committing; an out-of-range value fails with
    [InvalidControlValue] and leaves the current value unchanged. *)
Definition SetControlValue (c : IOUserAudioLevelControl) (v : Q)
  : StatusCode * IOUserAudioLevelControl :=
  if Qle_bool (mMinimum (lvl_range c)) v && Qle_bool v (mMaximum (lvl_range c))
  then (Success, lvl_set_value v c)
  else (InvalidControlValue, c).

(** The order of the specification's list: its third step attaches the Buffer
    of the output stream, so that a Buffer is bound to a stream before the
    fourth step creates the input stream. *)
Definition buffer_attached_before_input_stream (tr : list Call) : bool :=
  existsb is_SetIOMemoryDescriptor (calls_before is_input_stream_Create tr).

(** The calls of [Stop]: the device, when there is one, is stopped and
    withdrawn, then the superclass is called. *)
Definition Stop_calls (iv : MacaroniAudioDriver_IVars) : list Call :=
  match audioDevice iv with
  | Some h => [Ev.StopIO h IOUserAudioStartStopFlags_None; Ev.RemoveObject (Some h)]
  | None => []
  end ++ [Ev.super_Stop].

(** The calls of [free]: the objects held are released in the order of the
    fields, then the block, when there is one, is deleted. *)
Definition free_calls (d : Driver) : list Call :=
  map Ev.Release (owned_objects d) ++
  match ivars d with
  | Some _ => [Ev.IOSafeDeleteNULL_IVars]
  | None => []
  end ++ [Ev.super_free].

(** ** Observations for [Start] entered in any state *)

Definition is_Release (c : Call) : bool :=
  match c with
  | Ev.Release _ => true
  | _ => false
  end.

(** The calls of a trace other than the releases. *)
Definition calls_made (tr : list Call) : list Call :=
  List.filter (fun c => negb (is_Release c)) tr.

(** The calls that create an object and store it in a field of [ivars]. *)
Definition is_creation (c : Call) : bool :=
  match c with
  | Ev.IOUserAudioDevice_Create _ _ | Ev.IOUserAudioStream_Create _ _
  | Ev.IOUserAudioLevelControl_Create _ _ _ _ _
  | Ev.IOUserAudioBooleanControl_Create _ _ _ _
  | Ev.IOBufferMemoryDescriptor_Create _ _ _ _ => true
  | _ => false
  end.

(** The pointer fields of [ivars], in the order in which [Start] assigns
    them. *)
Definition construction_fields (iv : MacaroniAudioDriver_IVars) : list (option handle) :=
  [audioDevice iv; outputStream iv; inputStream iv; volumeControl iv; muteControl iv;
   outputBuffer iv; inputBuffer iv].

(** What [Start] has stored in the fields it reached, in that order: the
    handle of the new object, the [i]-th created having handle [n + i], or a
    null pointer for a creation that failed (after which [Start] returns). *)
Fixpoint stored (host : Host) (n i : nat) (steps : list (nat * Call * Check))
  : list (option handle) :=
  match steps with
  | [] => []
  | (_, c, k) :: rest =>
      if is_creation c
      then if passes host c k then Some (n + i)%nat :: stored host n (S i) rest
           else [None]
      else if passes host c k then stored host n i rest else []
  end.

Definition lookup_boolean_control (d : Driver) (h : handle)
  : option IOUserAudioBooleanControl :=
  match heap d !! h with
  | Some (OBooleanControl x) => Some x
  | _ => None
  end.

(** The buffer field of [ivars] for a direction. *)
Definition buffer_of (iv : MacaroniAudioDriver_IVars) (dir : IOUserAudioStreamDirection)
  : option handle :=
  match dir with
  | Output => outputBuffer iv
  | Input => inputBuffer iv
  end.

(** [Start] has added its device to the driver, and that device has the
    output and the input stream, the volume and the mute control of [ivars]
    attached, in this order. *)
Definition Start_registered (d d' : Driver) (iv' : MacaroniAudioDriver_IVars) : Prop :=
  ∃ h dev ho hi hv hm so si vc mc,
    driver_objects d' = driver_objects d ++ [h] ∧
    audioDevice iv' = Some h ∧ lookup_device d' h = Some dev ∧
    dev_streams dev = [ho; hi] ∧
    outputStream iv' = Some ho ∧ inputStream iv' = Some hi ∧
    lookup_stream d' ho = Some so ∧ str_direction so = Output ∧
    lookup_stream d' hi = Some si ∧ str_direction si = Input ∧
    dev_controls dev = [hv; hm] ∧
    volumeControl iv' = Some hv ∧ muteControl iv' = Some hm ∧
    lookup_level_control d' hv = Some vc ∧
    lookup_boolean_control d' hm = Some mc.

(** The device [Start] created, if any, runs I/O exactly when [Start]
    succeeded; each stream attached to it has the format, is bound to a
    buffer when [Start] succeeded, and a buffer bound to it is the buffer of
    [ivars] for its direction, of [bufferSize] bytes. *)
Definition Start_device_ok (r : kern_return_t) (d d' : Driver)
    (iv' : MacaroniAudioDriver_IVars) : Prop :=
  ∀ dev, lookup_device d' (length (heap d)) = Some dev →
    dev_ioRunning dev = succeeded r ∧
    Forall (fun st =>
       str_currentFormat st = Some format ∧
       (succeeded r = true → str_ioMemoryDescriptor st ≠ None) ∧
       ∀ b, str_ioMemoryDescriptor st = Some b →
            buffer_of iv' (str_direction st) = Some b ∧
            ∃ buf, lookup_buffer d' b = Some buf ∧ buf_capacity buf = bufferSize)
      (omap (lookup_stream d') (dev_streams dev)).

(** What holds when [Start], entered with any [ivars] block [iv], returns
    [r] in state [d']. *)
Definition Start_post_any (host : Host) (d : Driver) (iv : MacaroniAudioDriver_IVars)
    (r : kern_return_t) (d' : Driver) : Prop :=
  let n := length (heap d) in
  let steps := Start_steps n in
  let news := stored host n 0 steps in
  r = result host steps ∧
  ∃ new objs iv',
    trace d' = trace d ++ new ∧
    calls_made new = executed host steps ∧
    releases new = omap id (take (length news) (construction_fields iv)) ∧
    ivars d' = Some iv' ∧
    construction_fields iv' = news ++ drop (length news) (construction_fields iv) ∧
    volumeLevel iv' = volumeLevel iv ∧ isMuted iv' = isMuted iv ∧
    isRunning iv' = isRunning iv ∧
    heap d' = heap d ++ objs ∧
    omap id news = seq n (length objs) ∧
    service_registered d' = (if succeeded r then true else service_registered d) ∧
    (driver_objects d' = driver_objects d ∨ Start_registered d d' iv') ∧
    Start_device_ok r d d' iv'.

(** The state after [init] and a [Start] that failed at the input stream: the
    device and the output stream are held. *)
Definition partly_started : Driver :=
  Eval vm_compute in state_after (Start host_without_input_stream) initialized.

(** ** Sequences of host notifications *)

Inductive Notification :=
| NStartDevice (id : IOUserAudioObjectID) (flags : IOUserAudioStartStopFlags)
| NStopDevice (id : IOUserAudioObjectID) (flags : IOUserAudioStartStopFlags)
| NPerformDeviceConfigurationChange (id : IOUserAudioObjectID) (action : Z)
    (info : option handle)
| NAbortDeviceConfigurationChange (id : IOUserAudioObjectID) (action : Z)
    (info : option handle)
| NHandleChangedStreamFormat (id : IOUserAudioObjectID) (stream : option handle)
    (old_format new_format : option IOUserAudioStreamBasicDescription).

(** The handler the host calls for a notification. *)
Definition notify (n : Notification) : M kern_return_t kern_return_t :=
  match n with
  | NStartDevice id flags => StartDevice id flags
  | NStopDevice id flags => StopDevice id flags
  | NPerformDeviceConfigurationChange id action info =>
      PerformDeviceConfigurationChange id action info
  | NAbortDeviceConfigurationChange id action info =>
      AbortDeviceConfigurationChange id action info
  | NHandleChangedStreamFormat id stream old_format new_format =>
      HandleChangedStreamFormat id stream old_format new_format
  end.

(** The host delivers the notifications one after the other; the statuses
    returned and the final state, or [None] when a handler faults. *)
Fixpoint notify_all (ns : list Notification) (d : Driver)
  : option (list kern_return_t * Driver) :=
  match ns with
  | [] => Some ([], d)
  | n :: rest =>
      match run (notify n) d with
      | Some (r, d') =>
          match notify_all rest d' with
          | Some (rs, d'') => Some (r :: rs, d'')
          | None => None
          end
      | None => None
      end
  end.

(** The value of the running flag after a sequence of notifications: that of
    the last start or stop notification, [b] when there is none. *)
Fixpoint last_running (ns : list Notification) (b : bool) : bool :=
  match ns with
  | [] => b
  | NStartDevice _ _ :: rest => last_running rest true
  | NStopDevice _ _ :: rest => last_running rest false
  | _ :: rest => last_running rest b
  end.

(** ** Concrete states for the examples *)

(** The state after [init] and a [Start] in which every call succeeds. *)
Definition started : Driver :=
  Eval vm_compute in state_after (Start host_ok) initialized.

(** The state after a second [Start], one in which every call succeeds,
    entered in [partly_started]. *)
Definition restarted : Driver :=
  Eval vm_compute in state_after (Start host_ok) partly_started.

(** The [ivars] block of a driver that has one. *)
Definition ivars_of (d : Driver) : MacaroniAudioDriver_IVars :=
  match ivars d with
  | Some iv => iv
  | None => IVars_zero
  end.

(** * Proofs *)

(** ** Running a method body one operation at a time *)

Lemma run_bind_next {R A} (m : M R A) (k : A → M R R) d a d' :
  m d = Next a d' → run (bind m k) d = run (k a) d'.
Proof. intros H. unfold run, bind. now rewrite H. Qed.

Lemma run_bind_return {R A} (m : M R A) (k : A → M R R) d r d' :
  m d = Return r d' → run (bind m k) d = Some (r, d').
Proof. intros H. unfold run, bind. now rewrite H. Qed.

Lemma run_bind_fault {R A} (m : M R A) (k : A → M R R) d :
  m d = Fault → run (bind m k) d = None.
Proof. intros H. unfold run, bind. now rewrite H. Qed.

Lemma run_return {R} (r : R) d : run (return_ r) d = Some (r, d).
Proof. reflexivity. Qed.

(** The store is kept in the form [l ++ s] with [s] explicit, and a handle in
    the form [length l + k]. *)
Lemma lookup_app_length {A} (l s : list A) (k : nat) :
  (l ++ s) !! (length l + k)%nat = s !! k.
Proof. induction l as [|x l IH]; [reflexivity | exact IH]. Qed.

Ltac heap_norm :=
  repeat first
    [ rewrite length_app
    | rewrite <- app_assoc
    | rewrite alter_app_r ];
  cbn.

Ltac eval_op :=
  cbv beta iota delta
    [bind pure return_ fault when log modify alloc ivar set_ivars deref is_null
     return_when via update_object create call succeeded release assign reset
     slot_field slot_set
     IOUserAudioDevice_Create IOUserAudioStream_Create IOUserAudioLevelControl_Create
     IOUserAudioBooleanControl_Create SetName SetModelUID SetManufacturer
     SetCanBeDefault SetCanBeDefaultForSystemSounds SetSampleRate SetZeroTimeStampPeriod
     SetAvailableStreamFormats SetCurrentStreamFormat AddStream AddControl AddObject
     RemoveObject SetIOMemoryDescriptor StartIO StopIO RegisterService
     IOBufferMemoryDescriptor_Create
     with_ivars with_heap with_driver_objects with_service_registered with_trace
     ivars heap driver_objects service_registered trace
     audioDevice inputStream outputStream volumeControl muteControl inputBuffer
     outputBuffer volumeLevel isMuted isRunning
     set_audioDevice set_inputStream set_outputStream set_volumeControl set_muteControl
     set_inputBuffer set_outputBuffer set_volumeLevel set_isMuted set_isRunning negb].

(** Use what is known of the host's answers. *)
Ltac use_host :=
  repeat match goal with
         | E : succeeds _ _ = _ |- _ => rewrite E
         | E : Z.eqb (status _ _) _ = _ |- _ => rewrite E
         end.

Ltac solve_op := eval_op; use_host; heap_norm; reflexivity.

(** Run the operation at the head of the body. *)
Ltac step :=
  first [ rewrite run_return
        | erewrite run_bind_next by solve_op
        | erewrite run_bind_return by solve_op ].

(** The operation at the head asks the host: split on its answer. *)
Ltac branch :=
  lazymatch goal with
  | |- context [run (bind ?m ?k) ?d] =>
      let t := eval cbv beta iota delta
        [bind pure return_ fault when log modify alloc ivar set_ivars deref is_null
         return_when via update_object create call succeeded release assign reset
         slot_field slot_set
         IOUserAudioDevice_Create IOUserAudioStream_Create
         IOUserAudioLevelControl_Create IOUserAudioBooleanControl_Create
         AddStream AddControl AddObject SetIOMemoryDescriptor StartIO
         IOBufferMemoryDescriptor_Create
         with_ivars with_heap with_driver_objects with_service_registered with_trace
         ivars heap driver_objects service_registered trace
         audioDevice inputStream outputStream volumeControl muteControl inputBuffer
         outputBuffer] in (m d) in
      lazymatch t with
      | context [succeeds ?h ?c] => destruct (succeeds h c) eqn:?
      | context [Z.eqb (status ?h ?c) ?z] => destruct (Z.eqb (status h c) z) eqn:?
      end
  end.

(** ** [init] *)

(** When [init] succeeds the block holds no object, the volume level is 1 and
    the two flags are false; no host-side object is created. *)
Lemma init_success host d d' :
  run (init host) d = Some (true, d') →
  ivars d' = Some (set_volumeLevel 1 IVars_zero) ∧
  owned_objects d' = [] ∧
  heap d' = heap d ∧
  trace d' = trace d ++ [Ev.super_init; Ev.IONewZero_IVars].
Proof.
  unfold init, run, bind, log, modify, return_when, ivars_is_null, set_ivars,
    return_, pure.
  destruct (succeeds host Ev.super_init); cbn; [|intros [= ]].
  destruct (succeeds host Ev.IONewZero_IVars); cbn; [|intros [= ]].
  intros [= <-]. cbn. rewrite <- app_assoc. repeat split.
Qed.

Lemma init_initialized : run (init host_ok) fresh_driver = Some (true, initialized).
Proof. reflexivity. Qed.

(** ** [Start] from a state that holds no object *)

Lemma Start_run_aux host v m r objs reg tr l :
  let iv := {| audioDevice := None; inputStream := None; outputStream := None;
               volumeControl := None; muteControl := None;
               inputBuffer := None; outputBuffer := None;
               volumeLevel := v; isMuted := m; isRunning := r |} in
  let d := {| ivars := Some iv; heap := l; driver_objects := objs;
              service_registered := reg; trace := tr |} in
  match run (Start host) {| ivars := Some iv; heap := l ++ []; driver_objects := objs;
                            service_registered := reg; trace := tr |} with
  | Some (r, d') => Start_post host d iv r d'
  | None => False
  end.
Proof.
  intros iv d. subst iv d.
  unfold Start.
  repeat first [ step | branch ].
  all: unfold Start_post;
    cbv beta iota zeta delta
      [result executed Start_steps passes failure_status succeeded heap trace fst snd];
    unfold handle in *;
    use_host; cbv beta iota;
    (split; [reflexivity |]);
    (split; [reflexivity |]);
    (split; [ intros h; unfold owned_objects, owned; cbn;
              rewrite ?length_app; cbn [length];
              rewrite ?elem_of_cons, elem_of_nil; lia |]);
    (split; [ unfold the_device, lookup_device, lookup_stream; cbn;
              rewrite ?lookup_app_length; cbn;
              intros dev Hdev; try discriminate Hdev;
              injection Hdev as <-; cbn;
              rewrite ?lookup_app_length; cbn;
              repeat constructor |]).
  all: intros Hr;
    try (exfalso;
         first [ discriminate Hr
               | match goal with
                 | E : Z.eqb (status _ _) _ = false |- _ =>
                     rewrite Hr in E; discriminate E
                 end ]).
  reflexivity.
Qed.

Lemma owned_nil iv :
  owned iv = [] →
  iv = {| audioDevice := None; inputStream := None; outputStream := None;
          volumeControl := None; muteControl := None;
          inputBuffer := None; outputBuffer := None;
          volumeLevel := volumeLevel iv; isMuted := isMuted iv;
          isRunning := isRunning iv |}.
Proof.
  destruct iv as [[?|] [?|] [?|] [?|] [?|] [?|] [?|] v m r];
    cbn; intros H; try discriminate H; reflexivity.
Qed.

Lemma Start_run host d iv :
  ivars d = Some iv → owned iv = [] →
  match run (Start host) d with
  | Some (r, d') => Start_post host d iv r d'
  | None => False
  end.
Proof.
  intros Hiv Hown. destruct d as [oiv l objs reg tr]. cbn in Hiv. subst oiv.
  rewrite (owned_nil iv Hown).
  pose proof (Start_run_aux host (volumeLevel iv) (isMuted iv) (isRunning iv)
                objs reg tr l) as H.
  cbv zeta in H. rewrite app_nil_r in H. exact H.
Qed.

(** A successful [Start] leaves exactly the state [Start_final]. *)
Lemma Start_success host d iv d' :
  ivars d = Some iv → owned iv = [] →
  run (Start host) d = Some (kIOReturnSuccess, d') →
  d' = Start_final d iv.
Proof.
  intros Hiv Hown Hrun. pose proof (Start_run host d iv Hiv Hown) as H.
  rewrite Hrun in H. destruct H as (_ & _ & _ & _ & H). now apply H.
Qed.

Lemma Start_final_lookup d iv (k : nat) :
  heap (Start_final d iv) !! (length (heap d) + k)%nat
  = Start_objects (length (heap d)) !! k.
Proof. unfold Start_final. cbn [heap]. apply lookup_app_length. Qed.

(** ** The table of steps *)

Lemma executed_prefix host steps :
  executed host steps `prefix_of` map (fun s => snd (fst s)) steps.
Proof.
  induction steps as [|[[i c] k] rest IH]; cbn.
  - apply prefix_nil.
  - apply prefix_cons. destruct (passes host c k); [exact IH | apply prefix_nil].
Qed.

Lemma failure_status_not_success host c k :
  passes host c k = false → failure_status host c k ≠ kIOReturnSuccess.
Proof.
  destruct k; cbn; intros H.
  - discriminate H.
  - unfold succeeded in H. intros E. rewrite E in H. discriminate H.
  - discriminate.
Qed.

Lemma result_success host steps :
  result host steps = kIOReturnSuccess ↔
  Forall (fun s => passes host (snd (fst s)) (snd s) = true) steps.
Proof.
  induction steps as [|[[i c] k] rest IH]; cbn.
  - split; [constructor | reflexivity].
  - destruct (passes host c k) eqn:E.
    + rewrite IH. split.
      * intros H. constructor; [exact E | exact H].
      * intros H. inversion H; assumption.
    + split.
      * intros H. now apply failure_status_not_success in E.
      * intros H. inversion H as [|? ? H1 H2]. cbn in H1. congruence.
Qed.

Lemma Start_steps_no_teardown n :
  forallb (fun s => negb (is_teardown (snd (fst s)))) (Start_steps n) = true.
Proof. reflexivity. Qed.

Lemma executed_no_teardown host steps :
  forallb (fun s => negb (is_teardown (snd (fst s)))) steps = true →
  Forall (fun c => is_teardown c = false) (executed host steps).
Proof.
  induction steps as [|[[i c] k] rest IH]; cbn.
  - constructor.
  - intros [Hc Hrest]%andb_prop. constructor.
    + now apply negb_true_iff in Hc.
    + destruct (passes host c k); [now apply IH | constructor].
Qed.

(** ** Properties of [Start] *)

(** C1, as amended.  [Start], entered with an [ivars] block that holds no
    object, first calls the superclass and then makes the calls of
    [Start_steps] in that fixed order: create the device and set its
    properties, create the output stream and attach the format, create the
    input stream and attach the format, create the level and the boolean
    control, attach the two streams and the two controls, register the
    device, allocate the two buffers, bind each buffer to its stream (step 9
    is the only one that attaches a buffer), start I/O, advertise.  The calls
    made are the rows up to and including the first whose check fails, the
    status returned is that of this row ([kIOReturnNoMemory] for a failed
    creation, the call's own status otherwise) and [kIOReturnSuccess] exactly
    when every row passes; no call stops, withdraws or releases an object, and
    the objects held at return are exactly the objects created by the call. *)
Theorem Start_fixed_order host d iv :
  ivars d = Some iv → owned iv = [] →
  ∃ d',
    run (Start host) d = Some (result host (Start_steps (length (heap d))), d') ∧
    trace d' = trace d ++ executed host (Start_steps (length (heap d))) ∧
    executed host (Start_steps (length (heap d)))
      `prefix_of` map (fun s => snd (fst s)) (Start_steps (length (heap d))) ∧
    steps_in_order 0 (Start_steps (length (heap d))) = true ∧
    Forall (fun s => is_SetIOMemoryDescriptor (snd (fst s)) = true → fst (fst s) = 9%nat)
      (Start_steps (length (heap d))) ∧
    (result host (Start_steps (length (heap d))) = kIOReturnSuccess ↔
     Forall (fun s => passes host (snd (fst s)) (snd s) = true)
       (Start_steps (length (heap d)))) ∧
    Forall (fun c => is_teardown c = false)
      (executed host (Start_steps (length (heap d)))) ∧
    (∀ h, h ∈ owned_objects d' ↔ (length (heap d) ≤ h < length (heap d'))%nat).
Proof.
  intros Hiv Hown. pose proof (Start_run host d iv Hiv Hown) as H.
  destruct (run (Start host) d) as [[r d']|]; [|contradiction].
  destruct H as (Hr & Htr & Hheld & _ & _). exists d'.
  split; [now rewrite Hr |]. split; [exact Htr |].
  split; [apply executed_prefix |]. split; [reflexivity |].
  split; [repeat constructor; cbn; intros; congruence |].
  split; [apply result_success |].
  split; [apply executed_no_teardown, Start_steps_no_teardown | exact Hheld].
Qed.

Lemma Start_fixed_order_witness :
  ivars initialized = Some (set_volumeLevel 1 IVars_zero) ∧
  owned (set_volumeLevel 1 IVars_zero) = [] ∧
  ∃ d', run (Start host_without_input_stream) initialized
        = Some (kIOReturnNoMemory, d') ∧
        length (trace d') = (length (trace initialized) + 14)%nat.
Proof.
  split; [reflexivity |]. split; [reflexivity |].
  destruct (Start_fixed_order host_without_input_stream initialized
              (set_volumeLevel 1 IVars_zero) eq_refl eq_refl)
    as (d' & Hrun & Htr & _).
  exists d'. split; [exact Hrun |]. rewrite Htr. reflexivity.
Defined.

(** C1, as stated, fails.  When the host refuses the input stream (step 4),
    [Start] returns [kIOReturnNoMemory] with the output stream of step 3
    created and its format attached, but with no Buffer attached to it and no
    Buffer allocated; and in a run where every call succeeds no Buffer is
    bound before the input stream is created. *)
Lemma Start_attaches_no_buffer_in_step_3 :
  status_after (Start host_without_input_stream) initialized = Some kIOReturnNoMemory ∧
  owned_objects (state_after (Start host_without_input_stream) initialized)
    = [0; 1]%nat ∧
  lookup_stream (state_after (Start host_without_input_stream) initialized) 1%nat
    = Some {| str_direction := Output; str_objectID := kOutputStreamObjectID;
              str_name := Some outputStreamName;
              str_availableFormats := [format]; str_currentFormat := Some format;
              str_ioMemoryDescriptor := None |} ∧
  existsb is_SetIOMemoryDescriptor
    (trace (state_after (Start host_without_input_stream) initialized)) = false ∧
  existsb is_input_stream_Create
    (trace (state_after (Start host_ok) initialized)) = true ∧
  buffer_attached_before_input_stream
    (trace (state_after (Start host_ok) initialized)) = false.
Proof. vm_compute. repeat split. Qed.

Lemma Start_final_device d iv :
  the_device (Start_final d iv)
  = match Start_objects (length (heap d)) !! 0%nat with
    | Some (ODevice x) => Some x
    | _ => None
    end.
Proof.
  unfold the_device, lookup_device.
  unfold Start_final at 1. cbn [ivars audioDevice].
  rewrite Start_final_lookup. reflexivity.
Qed.

(** C2.  After a successful [Start] the device reports exactly one output
    stream and exactly one input stream (and no other stream); each is bound
    to a buffer of its own, the two buffers are distinct objects, and each
    has 512 x bytesPerFrame bytes, bytesPerFrame being that of the stream's
    format. *)
Theorem Start_one_stream_per_direction host d iv d' :
  ivars d = Some iv → owned iv = [] →
  run (Start host) d = Some (kIOReturnSuccess, d') →
  ∃ dev out inp hbo hbi bo bi,
    the_device d' = Some dev ∧
    length (dev_streams dev) = 2%nat ∧
    streams_of d' dev Output = [out] ∧
    streams_of d' dev Input = [inp] ∧
    str_ioMemoryDescriptor out = Some hbo ∧
    str_ioMemoryDescriptor inp = Some hbi ∧
    hbo ≠ hbi ∧
    lookup_buffer d' hbo = Some bo ∧
    lookup_buffer d' hbi = Some bi ∧
    str_currentFormat out = Some format ∧
    str_currentFormat inp = Some format ∧
    buf_capacity bo = 512 * mBytesPerFrame format ∧
    buf_capacity bi = 512 * mBytesPerFrame format.
Proof.
  intros Hiv Hown Hrun.
  rewrite (Start_success host d iv d' Hiv Hown Hrun).
  eexists _, _, _, (length (heap d) + 5)%nat, (length (heap d) + 6)%nat, _, _.
  split; [rewrite Start_final_device; reflexivity |].
  split; [reflexivity |].
  unfold streams_of, lookup_stream, lookup_buffer. cbn [dev_streams omap list_omap].
  rewrite !Start_final_lookup. cbn.
  repeat split; try reflexivity. lia.
Qed.

Lemma Start_one_stream_per_direction_witness :
  ivars initialized = Some (set_volumeLevel 1 IVars_zero) ∧
  owned (set_volumeLevel 1 IVars_zero) = [] ∧
  run (Start host_ok) initialized
  = Some (kIOReturnSuccess, state_after (Start host_ok) initialized) ∧
  ∃ dev out inp hbo hbi bo bi,
    the_device (state_after (Start host_ok) initialized) = Some dev ∧
    length (dev_streams dev) = 2%nat ∧
    streams_of (state_after (Start host_ok) initialized) dev Output = [out] ∧
    streams_of (state_after (Start host_ok) initialized) dev Input = [inp] ∧
    str_ioMemoryDescriptor out = Some hbo ∧
    str_ioMemoryDescriptor inp = Some hbi ∧
    hbo ≠ hbi ∧
    lookup_buffer (state_after (Start host_ok) initialized) hbo = Some bo ∧
    lookup_buffer (state_after (Start host_ok) initialized) hbi = Some bi ∧
    str_currentFormat out = Some format ∧
    str_currentFormat inp = Some format ∧
    buf_capacity bo = 512 * mBytesPerFrame format ∧
    buf_capacity bi = 512 * mBytesPerFrame format.
Proof.
  assert (Hrun : run (Start host_ok) initialized
                 = Some (kIOReturnSuccess, state_after (Start host_ok) initialized))
    by (vm_compute; reflexivity).
  split; [reflexivity |]. split; [reflexivity |]. split; [exact Hrun |].
  exact (Start_one_stream_per_direction host_ok initialized
           (set_volumeLevel 1 IVars_zero)
           (state_after (Start host_ok) initialized) eq_refl eq_refl Hrun).
Defined.

(** C3.  The format [Start] builds satisfies bytesPerFrame = channelCount x
    (bitsPerChannel / 8), with 48000 Hz, 2 channels, 32 bits, 8 bytes per
    frame and 1 frame per packet.  Whatever status [Start] returns, every
    stream attached to the device carries this format, as its current format
    and as its only available format; after a successful [Start] the device
    has both streams, an output and an input stream, with the same format. *)
Theorem Start_streams_share_format host d iv r d' :
  ivars d = Some iv → owned iv = [] →
  run (Start host) d = Some (r, d') →
  (∀ dev s f,
     the_device d' = Some dev →
     s ∈ omap (lookup_stream d') (dev_streams dev) →
     str_currentFormat s = Some f →
     f = format ∧ str_availableFormats s = [f] ∧
     mBytesPerFrame f = mChannelsPerFrame f * (mBitsPerChannel f / 8) ∧
     mSampleRate f = 48000 ∧ mChannelsPerFrame f = 2 ∧ mBitsPerChannel f = 32 ∧
     mBytesPerFrame f = 8 ∧ mFramesPerPacket f = 1) ∧
  (∀ dev s,
     the_device d' = Some dev →
     s ∈ omap (lookup_stream d') (dev_streams dev) →
     str_currentFormat s = Some format) ∧
  (r = kIOReturnSuccess →
   ∃ dev out inp,
     the_device d' = Some dev ∧
     omap (lookup_stream d') (dev_streams dev) = [out; inp] ∧
     str_direction out = Output ∧ str_direction inp = Input ∧
     str_currentFormat out = str_currentFormat inp).
Proof.
  intros Hiv Hown Hrun. pose proof (Start_run host d iv Hiv Hown) as H.
  rewrite Hrun in H. destruct H as (_ & _ & _ & Hfmt & Hfinal).
  assert (Hall : ∀ dev s, the_device d' = Some dev →
                 s ∈ omap (lookup_stream d') (dev_streams dev) →
                 str_currentFormat s = Some format ∧
                 str_availableFormats s = [format]).
  { intros dev s Hdev Hs. specialize (Hfmt dev Hdev).
    rewrite Forall_forall in Hfmt. now apply Hfmt. }
  split; [|split].
  - intros dev s f Hdev Hs Hf. destruct (Hall dev s Hdev Hs) as [Hcur Hav].
    rewrite Hcur in Hf. injection Hf as <-. rewrite Hav.
    repeat split; reflexivity.
  - intros dev s Hdev Hs. now destruct (Hall dev s Hdev Hs).
  - intros Hr. rewrite (Hfinal Hr). eexists _, _, _.
    split; [rewrite Start_final_device; reflexivity |].
    unfold lookup_stream. cbn [dev_streams omap list_omap].
    rewrite !Start_final_lookup. cbn. repeat split; reflexivity.
Qed.

Lemma Start_streams_share_format_witness :
  ivars initialized = Some (set_volumeLevel 1 IVars_zero) ∧
  owned (set_volumeLevel 1 IVars_zero) = [] ∧
  run (Start host_ok) initialized
  = Some (kIOReturnSuccess, state_after (Start host_ok) initialized) ∧
  ∃ dev out inp,
    the_device (state_after (Start host_ok) initialized) = Some dev ∧
    omap (lookup_stream (state_after (Start host_ok) initialized)) (dev_streams dev)
    = [out; inp] ∧
    str_direction out = Output ∧ str_direction inp = Input ∧
    str_currentFormat out = str_currentFormat inp.
Proof.
  assert (Hrun : run (Start host_ok) initialized
                 = Some (kIOReturnSuccess, state_after (Start host_ok) initialized))
    by (vm_compute; reflexivity).
  split; [reflexivity |]. split; [reflexivity |]. split; [exact Hrun |].
  exact (proj2 (proj2 (Start_streams_share_format host_ok initialized
                         (set_volumeLevel 1 IVars_zero) kIOReturnSuccess
                         (state_after (Start host_ok) initialized)
                         eq_refl eq_refl Hrun)) eq_refl).
Defined.

(** C4, as amended.  When [Start] returns [kIOReturnSuccess], the device has
    been registered with the driver, its I/O has been started and the service
    has been advertised; [Start] does not write the [isRunning] flag (nor
    [volumeLevel], nor [isMuted]), which keeps the value it had at entry.
    The flag becomes true when the host then calls [StartDevice]. *)
Theorem Start_keeps_isRunning host d iv d' :
  ivars d = Some iv → owned iv = [] →
  run (Start host) d = Some (kIOReturnSuccess, d') →
  ∃ iv' h dev,
    ivars d' = Some iv' ∧
    isRunning iv' = isRunning iv ∧
    volumeLevel iv' = volumeLevel iv ∧
    isMuted iv' = isMuted iv ∧
    audioDevice iv' = Some h ∧
    lookup_device d' h = Some dev ∧
    dev_ioRunning dev = true ∧
    h ∈ driver_objects d' ∧
    service_registered d' = true ∧
    ∀ id flags,
      status_after (StartDevice id flags) d' = Some kIOReturnSuccess ∧
      isRunning <$> ivars (state_after (StartDevice id flags) d') = Some true.
Proof.
  intros Hiv Hown Hrun.
  rewrite (Start_success host d iv d' Hiv Hown Hrun).
  eexists _, (length (heap d) + 0)%nat, _.
  split; [reflexivity |]. split; [reflexivity |]. split; [reflexivity |].
  split; [reflexivity |]. split; [reflexivity |].
  split; [unfold lookup_device; rewrite Start_final_lookup; reflexivity |].
  split; [reflexivity |].
  split; [cbn; apply elem_of_app; right; apply list_elem_of_singleton; reflexivity |].
  split; [reflexivity |].
  intros id flags. split; reflexivity.
Qed.

Lemma Start_keeps_isRunning_witness :
  ivars initialized = Some (set_volumeLevel 1 IVars_zero) ∧
  owned (set_volumeLevel 1 IVars_zero) = [] ∧
  run (Start host_ok) initialized
  = Some (kIOReturnSuccess, state_after (Start host_ok) initialized) ∧
  ∃ iv', ivars (state_after (Start host_ok) initialized) = Some iv' ∧
         isRunning iv' = false.
Proof.
  assert (Hrun : run (Start host_ok) initialized
                 = Some (kIOReturnSuccess, state_after (Start host_ok) initialized))
    by (vm_compute; reflexivity).
  split; [reflexivity |]. split; [reflexivity |]. split; [exact Hrun |].
  destruct (Start_keeps_isRunning host_ok initialized
              (set_volumeLevel 1 IVars_zero)
              (state_after (Start host_ok) initialized) eq_refl eq_refl Hrun)
    as (iv' & _ & _ & Hiv' & Hflag & _).
  exists iv'. split; [exact Hiv' | exact Hflag].
Defined.

(** C4, as stated, fails.  [init] followed by a [Start] in which every call
    succeeds returns [kIOReturnSuccess] with the [isRunning] flag false. *)
Lemma Start_success_isRunning_false :
  run (init host_ok) fresh_driver = Some (true, initialized) ∧
  status_after (Start host_ok) initialized = Some kIOReturnSuccess ∧
  isRunning <$> ivars (state_after (Start host_ok) initialized) = Some false.
Proof. vm_compute. repeat split. Qed.

(** ** The volume control *)

Lemma Qle_bool_false (x y : Q) : (y < x)%Q → Qle_bool x y = false.
Proof.
  intros H. destruct (Qle_bool x y) eqn:E; [|reflexivity].
  apply Qle_bool_iff in E. exfalso. exact (Qlt_not_le _ _ H E).
Qed.

(** C9.  The volume control [Start] creates is settable and has the range
    [-96, 0] dB.  On it, the set operation succeeds for every value of the
    range, in particular -96, and commits the value; it fails with
    [InvalidControlValue] for every value outside the range, in particular
    +1, and then leaves the control, hence its current value, unchanged. *)
Theorem volume_control_SetControlValue host d iv d' :
  ivars d = Some iv → owned iv = [] →
  run (Start host) d = Some (kIOReturnSuccess, d') →
  ∃ iv' h c,
    ivars d' = Some iv' ∧
    volumeControl iv' = Some h ∧
    lookup_level_control d' h = Some c ∧
    lvl_isSettable c = true ∧
    mMinimum (lvl_range c) = (-96)%Q ∧
    mMaximum (lvl_range c) = 0%Q ∧
    (∀ v, (-96 <= v)%Q → (v <= 0)%Q →
          SetControlValue c v = (Success, lvl_set_value v c) ∧
          lvl_value (snd (SetControlValue c v)) = v) ∧
    (∀ v, (v < -96)%Q ∨ (0 < v)%Q →
          SetControlValue c v = (InvalidControlValue, c)) ∧
    fst (SetControlValue c (-96)) = Success ∧
    SetControlValue c 1 = (InvalidControlValue, c).
Proof.
  intros Hiv Hown Hrun.
  rewrite (Start_success host d iv d' Hiv Hown Hrun).
  eexists _, (length (heap d) + 3)%nat, _.
  split; [reflexivity |]. split; [reflexivity |].
  split; [unfold lookup_level_control; rewrite Start_final_lookup; reflexivity |].
  split; [reflexivity |]. split; [reflexivity |]. split; [reflexivity |].
  split; [|split; [|split; reflexivity]].
  - intros v Hlo Hhi. unfold SetControlValue. cbn [lvl_range volumeRange mMinimum mMaximum].
    apply Qle_bool_iff in Hlo, Hhi. rewrite Hlo, Hhi. split; reflexivity.
  - intros v [Hlo | Hhi]; unfold SetControlValue;
      cbn [lvl_range volumeRange mMinimum mMaximum].
    + rewrite (Qle_bool_false _ _ Hlo). reflexivity.
    + rewrite (Qle_bool_false _ _ Hhi), andb_false_r. reflexivity.
Qed.

Lemma volume_control_SetControlValue_witness :
  ivars initialized = Some (set_volumeLevel 1 IVars_zero) ∧
  owned (set_volumeLevel 1 IVars_zero) = [] ∧
  run (Start host_ok) initialized
  = Some (kIOReturnSuccess, state_after (Start host_ok) initialized) ∧
  ∃ c, lookup_level_control (state_after (Start host_ok) initialized) 3%nat = Some c ∧
       SetControlValue c 1 = (InvalidControlValue, c).
Proof.
  assert (Hrun : run (Start host_ok) initialized
                 = Some (kIOReturnSuccess, state_after (Start host_ok) initialized))
    by (vm_compute; reflexivity).
  split; [reflexivity |]. split; [reflexivity |]. split; [exact Hrun |].
  destruct (volume_control_SetControlValue host_ok initialized
              (set_volumeLevel 1 IVars_zero)
              (state_after (Start host_ok) initialized) eq_refl eq_refl Hrun)
    as (iv' & h & c & Hiv' & Hh & Hc & _ & _ & _ & _ & _ & _ & Hplus1).
  exists c. split; [|exact Hplus1].
  assert (Hst : ivars (state_after (Start host_ok) initialized)
                = Some {| audioDevice := Some 0%nat; inputStream := Some 2%nat;
                          outputStream := Some 1%nat; volumeControl := Some 3%nat;
                          muteControl := Some 4%nat; inputBuffer := Some 6%nat;
                          outputBuffer := Some 5%nat; volumeLevel := 1;
                          isMuted := false; isRunning := false |})
    by (vm_compute; reflexivity).
  rewrite Hst in Hiv'. injection Hiv' as <-. cbn in Hh. injection Hh as <-.
  exact Hc.
Defined.

(** ** [free] *)

Lemma bind_next {R A B} (m : M R A) (k : A → M R B) d a d' :
  m d = Next a d' → bind m k d = k a d'.
Proof. intros H. unfold bind. now rewrite H. Qed.

(** Resetting a field releases the object it holds, if any, and clears it. *)
Lemma reset_run {R} field set d iv :
  ivars d = Some iv →
  @reset R field set d
  = Next tt (with_ivars (Some (set None iv))
               (with_trace (trace d ++ map Ev.Release (option_list (field iv))) d)).
Proof.
  intros Hiv. destruct d as [oiv l objs reg tr]. cbn in Hiv. subst oiv.
  unfold reset, assign, bind, ivar, release, set_ivars, log, modify, pure. cbn.
  destruct (field iv); cbn; [reflexivity |]. now rewrite app_nil_r.
Qed.

Lemma releases_app (a b : list Call) : releases (a ++ b) = releases a ++ releases b.
Proof. apply omap_app. Qed.

Lemma releases_Release (l : list handle) : releases (map Ev.Release l) = l.
Proof. induction l as [|h l IH]; [reflexivity | cbn; f_equal; exact IH]. Qed.

(** C5, as amended.  [free] is defined on every state.  It releases the
    objects held by the [ivars] block in the order of its fields (device,
    input stream, output stream, volume control, mute control, input buffer,
    output buffer), each once, then deletes the block, then calls the
    superclass; afterwards the driver holds no object and no block.  With no
    block it only calls the superclass. *)
Theorem free_releases_in_field_order d :
  ∃ d',
    run free d = Some (tt, d') ∧
    ivars d' = None ∧
    owned_objects d' = [] ∧
    trace d' = trace d ++ free_calls d ∧
    releases (free_calls d) = owned_objects d ∧
    heap d' = heap d ∧
    driver_objects d' = driver_objects d ∧
    service_registered d' = service_registered d.
Proof.
  assert (Hrel' : releases (free_calls d) = owned_objects d).
  { unfold free_calls. rewrite releases_app, releases_Release.
    destruct (ivars d); cbn; apply app_nil_r. }
  destruct d as [[iv|] l objs reg tr].
  - eexists. split.
    + unfold free. erewrite run_bind_next by reflexivity.
      erewrite run_bind_next; [reflexivity |]. cbn [ivars negb when].
      erewrite bind_next by (apply reset_run; reflexivity).
      erewrite bind_next by (apply reset_run; reflexivity).
      erewrite bind_next by (apply reset_run; reflexivity).
      erewrite bind_next by (apply reset_run; reflexivity).
      erewrite bind_next by (apply reset_run; reflexivity).
      erewrite bind_next by (apply reset_run; reflexivity).
      erewrite bind_next by (apply reset_run; reflexivity).
      reflexivity.
    + split; [reflexivity |]. split; [reflexivity |].
      split; [|split; [exact Hrel' | repeat split]].
      unfold free_calls, owned_objects, owned. cbn.
      rewrite !map_app, <- !app_assoc. reflexivity.
  - eexists. split; [reflexivity |]. repeat split.
Qed.

(** C5, as stated, fails.  After [init] and a [Start] in which every call
    succeeds the seven objects were created in the order 0, 1, ..., 6 (device,
    output stream, input stream, volume control, mute control, output buffer,
    input buffer); [free] releases them in the order 0, 2, 1, 3, 4, 6, 5,
    device first, which is not the reverse of the order of construction. *)
Lemma free_not_in_reverse_construction_order :
  created_between initialized (state_after (Start host_ok) initialized)
  = [0; 1; 2; 3; 4; 5; 6]%nat ∧
  releases (calls_of free (state_after (Start host_ok) initialized))
  = [0; 2; 1; 3; 4; 6; 5]%nat ∧
  releases (calls_of free (state_after (Start host_ok) initialized))
  ≠ rev (created_between initialized (state_after (Start host_ok) initialized)).
Proof. vm_compute. repeat split. discriminate. Qed.

(** ** [Stop] *)

Lemma alter_twice {A} (f : A → A) (i : nat) (l : list A) :
  (∀ x, f (f x) = f x) → alter f i (alter f i l) = alter f i l.
Proof.
  intros Hf. revert i. induction l as [|x l IH]; intros [|i]; cbn;
    [reflexivity | reflexivity | now rewrite Hf | f_equal; apply IH].
Qed.

Lemma filter_twice {A} (P : A → Prop) `{!∀ x, Decision (P x)} (l : list A) :
  filter P (filter P l) = filter P l.
Proof.
  induction l as [|x l IH]; [reflexivity |].
  rewrite filter_cons. destruct (decide (P x)) as [Hx|Hx]; [|exact IH].
  rewrite filter_cons. destruct (decide (P x)); [now rewrite IH | contradiction].
Qed.

Lemma Stop_run host d iv :
  ivars d = Some iv →
  run (Stop host) d
  = Some (status host Ev.super_Stop,
          match audioDevice iv with
          | Some h =>
              with_trace (trace d ++ Stop_calls iv)
                (with_driver_objects
                   (filter (fun o => Some o ≠ Some h) (driver_objects d))
                   (with_heap
                      (alter (update_device (dev_set_ioRunning false)) h (heap d)) d))
          | None => with_trace (trace d ++ Stop_calls iv) d
          end).
Proof.
  intros Hiv. destruct d as [oiv l objs reg tr]. cbn in Hiv. subst oiv.
  destruct iv as [[h|] ins outs vol mut ibuf obuf v m r]; unfold Stop, Stop_calls.
  - erewrite run_bind_next by (eval_op; reflexivity).
    erewrite run_bind_next
      by (eval_op; rewrite <- ?app_assoc; cbn [app]; reflexivity).
    erewrite run_bind_next
      by (eval_op; rewrite <- ?app_assoc; cbn [app];
          destruct (Z.eqb _ _); reflexivity).
    rewrite run_return. reflexivity.
  - erewrite run_bind_next by (eval_op; reflexivity).
    erewrite run_bind_next by (eval_op; reflexivity).
    erewrite run_bind_next
      by (eval_op; rewrite <- ?app_assoc; cbn [app];
          destruct (Z.eqb _ _); reflexivity).
    rewrite run_return. reflexivity.
Qed.

(** C6, as amended.  [Stop] never releases the device: the [ivars] block is
    the same after it.  With a device present every call of [Stop], a
    repeated one included, stops its I/O and withdraws it from the driver,
    then calls the superclass; with no device it only calls the superclass
    and changes nothing else.  It returns the status of the superclass, hence
    [kIOReturnSuccess] whenever the superclass succeeds.  A second call in a
    row leaves the objects, the registered devices and the advertisement as
    the first call left them. *)
Theorem Stop_twice host1 host2 d iv :
  ivars d = Some iv →
  ∃ d1 d2,
    run (Stop host1) d = Some (status host1 Ev.super_Stop, d1) ∧
    run (Stop host2) d1 = Some (status host2 Ev.super_Stop, d2) ∧
    ivars d1 = Some iv ∧
    ivars d2 = Some iv ∧
    trace d1 = trace d ++ Stop_calls iv ∧
    trace d2 = trace d1 ++ Stop_calls iv ∧
    releases (Stop_calls iv) = [] ∧
    heap d2 = heap d1 ∧
    driver_objects d2 = driver_objects d1 ∧
    service_registered d2 = service_registered d1 ∧
    (audioDevice iv = None →
     Stop_calls iv = [Ev.super_Stop] ∧
     heap d1 = heap d ∧ driver_objects d1 = driver_objects d) ∧
    (∀ h, audioDevice iv = Some h →
     Stop_calls iv = [Ev.StopIO h IOUserAudioStartStopFlags_None;
                      Ev.RemoveObject (Some h); Ev.super_Stop]).
Proof.
  intros Hiv. pose proof (Stop_run host1 d iv Hiv) as H1.
  destruct d as [oiv l objs reg tr]. cbn in Hiv. subst oiv.
  destruct iv as [[h|] ins outs vol mut ibuf obuf v m r].
  - eexists _, _. split; [exact H1 |].
    split; [apply Stop_run; reflexivity |].
    cbn. split_and!; try reflexivity.
    + apply alter_twice. intros [x| | | |]; reflexivity.
    + apply filter_twice.
    + discriminate.
    + intros h' [= <-]. reflexivity.
  - eexists _, _. split; [exact H1 |].
    split; [apply Stop_run; reflexivity |].
    cbn. split_and!; try reflexivity.
    + intros _. split_and!; reflexivity.
    + discriminate.
Qed.

Lemma Stop_twice_witness :
  ivars initialized = Some (set_volumeLevel 1 IVars_zero) ∧
  ∃ d1 d2,
    run (Stop host_ok) initialized = Some (kIOReturnSuccess, d1) ∧
    run (Stop host_ok) d1 = Some (kIOReturnSuccess, d2) ∧
    trace d2 = trace initialized ++ [Ev.super_Stop; Ev.super_Stop].
Proof.
  split; [reflexivity |].
  destruct (Stop_twice host_ok host_ok initialized (set_volumeLevel 1 IVars_zero)
              eq_refl)
    as (d1 & d2 & H1 & H2 & _ & _ & Ht1 & Ht2 & _).
  exists d1, d2. split; [exact H1 |]. split; [exact H2 |].
  rewrite Ht2, Ht1. reflexivity.
Defined.

(** C6, as stated, fails.  After [init] and a successful [Start], a second
    [Stop] in a row stops the I/O of the device and withdraws it again; and
    when the superclass fails, [Stop] returns that status, not success. *)
Lemma Stop_twice_stops_device_again :
  calls_of (Stop host_ok)
    (state_after (Stop host_ok) (state_after (Start host_ok) initialized))
  = [Ev.StopIO 0%nat IOUserAudioStartStopFlags_None; Ev.RemoveObject (Some 0%nat);
     Ev.super_Stop] ∧
  existsb is_teardown
    (calls_of (Stop host_ok)
       (state_after (Stop host_ok) (state_after (Start host_ok) initialized)))
  = true ∧
  status_after (Stop host_failing_super_Stop)
    (state_after (Stop host_failing_super_Stop)
       (state_after (Start host_ok) initialized))
  = Some 1.
Proof. vm_compute. repeat split. Qed.

(** ** The host's notifications *)

(** C7.  For every object id and flags, on a driver that has its [ivars]
    block, [StartDevice] returns [kIOReturnSuccess] and sets [isRunning] to
    true, [StopDevice] returns [kIOReturnSuccess] and sets it to false; the
    handles of the block, [volumeLevel], [isMuted], the host-side objects,
    the registered devices, the advertisement and the trace are unchanged. *)
Theorem StartDevice_StopDevice_set_isRunning
    (id : IOUserAudioObjectID) (flags : IOUserAudioStartStopFlags) d iv :
  ivars d = Some iv →
  ∃ d1 d2 iv1 iv2,
    run (StartDevice id flags) d = Some (kIOReturnSuccess, d1) ∧
    run (StopDevice id flags) d = Some (kIOReturnSuccess, d2) ∧
    ivars d1 = Some iv1 ∧ ivars d2 = Some iv2 ∧
    isRunning iv1 = true ∧ isRunning iv2 = false ∧
    iv1 = set_isRunning true iv ∧ iv2 = set_isRunning false iv ∧
    owned iv1 = owned iv ∧ owned iv2 = owned iv ∧
    volumeLevel iv1 = volumeLevel iv ∧ volumeLevel iv2 = volumeLevel iv ∧
    isMuted iv1 = isMuted iv ∧ isMuted iv2 = isMuted iv ∧
    heap d1 = heap d ∧ heap d2 = heap d ∧
    driver_objects d1 = driver_objects d ∧ driver_objects d2 = driver_objects d ∧
    service_registered d1 = service_registered d ∧
    service_registered d2 = service_registered d ∧
    trace d1 = trace d ∧ trace d2 = trace d.
Proof.
  intros Hiv.
  exists (with_ivars (Some (set_isRunning true iv)) d),
         (with_ivars (Some (set_isRunning false iv)) d),
         (set_isRunning true iv), (set_isRunning false iv).
  unfold StartDevice, StopDevice, run, bind, set_ivars, return_.
  rewrite Hiv. repeat split.
Qed.

Lemma StartDevice_StopDevice_set_isRunning_witness :
  ivars initialized = Some (set_volumeLevel 1 IVars_zero) ∧
  ∃ d1 d2,
    run (StartDevice kDeviceObjectID IOUserAudioStartStopFlags_None) initialized
    = Some (kIOReturnSuccess, d1) ∧
    run (StopDevice kDeviceObjectID IOUserAudioStartStopFlags_None) d1
    = Some (kIOReturnSuccess, d2) ∧
    isRunning <$> ivars d1 = Some true ∧
    isRunning <$> ivars d2 = Some false.
Proof.
  split; [reflexivity |].
  destruct (StartDevice_StopDevice_set_isRunning kDeviceObjectID
              IOUserAudioStartStopFlags_None initialized
              (set_volumeLevel 1 IVars_zero) eq_refl)
    as (d1 & _ & iv1 & _ & H1 & _ & Hiv1 & _ & Hr1 & _).
  destruct (StartDevice_StopDevice_set_isRunning kDeviceObjectID
              IOUserAudioStartStopFlags_None d1 iv1 Hiv1)
    as (_ & d2 & _ & iv2 & _ & H2 & _ & Hiv2 & _ & Hr2 & _).
  exists d1, d2. split; [exact H1 |]. split; [exact H2 |].
  rewrite Hiv1, Hiv2. cbn. rewrite Hr1, Hr2. split; reflexivity.
Defined.

(** C8.  For every object id, change action, change info, stream and formats,
    and in every state, [PerformDeviceConfigurationChange],
    [AbortDeviceConfigurationChange] and [HandleChangedStreamFormat] return
    [kIOReturnSuccess] and leave the whole state as it was. *)
Theorem configuration_handlers_acknowledge
    (id : IOUserAudioObjectID) (action : Z) (info stream : option handle)
    (old_format new_format : option IOUserAudioStreamBasicDescription) (d : Driver) :
  run (PerformDeviceConfigurationChange id action info) d
  = Some (kIOReturnSuccess, d) ∧
  run (AbortDeviceConfigurationChange id action info) d
  = Some (kIOReturnSuccess, d) ∧
  run (HandleChangedStreamFormat id stream old_format new_format) d
  = Some (kIOReturnSuccess, d).
Proof. repeat split. Qed.

(** C10.  The result of [StartDevice] and of [StopDevice] does not depend on
    the object id nor on the flags: from one state, any two calls give the
    same status and the same state, and a status returned is
    [kIOReturnSuccess]. *)
Theorem StartDevice_StopDevice_ignore_arguments
    (id1 id2 : IOUserAudioObjectID) (flags1 flags2 : IOUserAudioStartStopFlags)
    (d : Driver) :
  run (StartDevice id1 flags1) d = run (StartDevice id2 flags2) d ∧
  run (StopDevice id1 flags1) d = run (StopDevice id2 flags2) d ∧
  match run (StartDevice id1 flags1) d with
  | Some (r, _) => r = kIOReturnSuccess
  | None => ivars d = None
  end ∧
  match run (StopDevice id1 flags1) d with
  | Some (r, _) => r = kIOReturnSuccess
  | None => ivars d = None
  end.
Proof.
  split; [reflexivity |]. split; [reflexivity |].
  unfold StartDevice, StopDevice, run, bind, set_ivars, return_.
  destruct (ivars d); repeat split.
Qed.

(** * Further properties *)

(** ** [Start] entered in any state *)

Lemma run_bind_assoc {R A B} (m : M R A) (k1 : A → M R B) (k : B → M R R) d :
  run (bind (bind m k1) k) d = run (bind m (fun x => bind (k1 x) k)) d.
Proof. unfold run, bind. destruct (m d); reflexivity. Qed.

(** An assignment to a field releases the object the field held. *)
Lemma assign_run {R} field set p iv l objs reg tr :
  @assign R field set p
    {| ivars := Some iv; heap := l; driver_objects := objs;
       service_registered := reg; trace := tr |}
  = Next tt {| ivars := Some (set p iv); heap := l; driver_objects := objs;
               service_registered := reg;
               trace := tr ++ map Ev.Release (option_list (field iv)) |}.
Proof.
  unfold assign, bind, ivar, release, set_ivars, log, modify, pure. cbn.
  destruct (field iv); cbn; [reflexivity |]. now rewrite app_nil_r.
Qed.

Lemma calls_made_Release (l : list nat) rest :
  calls_made (map Ev.Release l ++ rest) = calls_made rest.
Proof. induction l as [|h l IH]; [reflexivity | exact IH]. Qed.

Lemma calls_made_Release_only (l : list nat) : calls_made (map Ev.Release l) = [].
Proof. induction l as [|h l IH]; [reflexivity | exact IH]. Qed.

Lemma calls_made_keep c l :
  is_Release c = false → calls_made (c :: l) = c :: calls_made l.
Proof. unfold calls_made. cbn. now intros ->. Qed.

Lemma releases_Release_app (l : list nat) rest :
  releases (map Ev.Release l ++ rest) = l ++ releases rest.
Proof. induction l as [|h l IH]; [reflexivity | cbn; f_equal; exact IH]. Qed.

Lemma releases_Release_only (l : list nat) : releases (map Ev.Release l) = l ++ [].
Proof. rewrite app_nil_r. apply releases_Release. Qed.

Lemma releases_skip c l : is_Release c = false → releases (c :: l) = releases l.
Proof. destruct c; cbn; intros H; try discriminate H; reflexivity. Qed.

Lemma omap_id_cons {A} (x : option A) l : omap id (x :: l) = option_list x ++ omap id l.
Proof. destruct x; reflexivity. Qed.

Lemma lookup_app_length0 {A} (l s : list A) : (l ++ s) !! length l = s !! 0%nat.
Proof. rewrite <- (lookup_app_length l s 0), Nat.add_0_r. reflexivity. Qed.

Lemma NoMemory_not_success : (kIOReturnNoMemory =? kIOReturnSuccess) = false.
Proof. reflexivity. Qed.

Lemma Success_is_success : (kIOReturnSuccess =? kIOReturnSuccess) = true.
Proof. reflexivity. Qed.

Ltac norm_state :=
  cbn [audioDevice inputStream outputStream volumeControl muteControl inputBuffer
       outputBuffer volumeLevel isMuted isRunning
       set_audioDevice set_inputStream set_outputStream set_volumeControl
       set_muteControl set_inputBuffer set_outputBuffer slot_field slot_set];
  repeat (rewrite <- app_assoc; cbn [app]).

Ltac step_any :=
  first [ rewrite run_return
        | erewrite run_bind_next by (apply assign_run); norm_state
        | erewrite run_bind_next by solve_op; norm_state
        | erewrite run_bind_return by solve_op; norm_state
        | progress (unfold IOBufferMemoryDescriptor_Create, reset at 1;
                    rewrite !run_bind_assoc) ].

Ltac use_status :=
  unfold succeeded; use_host;
  rewrite ?NoMemory_not_success, ?Success_is_success.

(** Look an object created by the call up in the store. *)
Ltac lookup_new :=
  unfold lookup_device, lookup_stream, lookup_level_control, lookup_boolean_control,
    lookup_buffer;
  cbn [heap]; rewrite ?lookup_app_length, ?lookup_app_length0; cbn.

Ltac solve_stream :=
  split; [reflexivity |];
  split; [ let Hs := fresh in intros Hs; first [discriminate Hs | discriminate] |];
  let b := fresh "b" in let Hb := fresh "Hb" in
  intros b Hb; cbn in Hb;
  first [ discriminate Hb
        | injection Hb as <-;
          split; [reflexivity |];
          eexists; split; [lookup_new; reflexivity | reflexivity] ].

Lemma Start_run_any_aux host a_dev a_in a_out a_vol a_mute a_ibuf a_obuf
    v m r objs reg tr l :
  let iv := {| audioDevice := a_dev; inputStream := a_in; outputStream := a_out;
               volumeControl := a_vol; muteControl := a_mute;
               inputBuffer := a_ibuf; outputBuffer := a_obuf;
               volumeLevel := v; isMuted := m; isRunning := r |} in
  let d := {| ivars := Some iv; heap := l; driver_objects := objs;
              service_registered := reg; trace := tr |} in
  match run (Start host) {| ivars := Some iv; heap := l ++ []; driver_objects := objs;
                            service_registered := reg; trace := tr |} with
  | Some (r, d') => Start_post_any host d iv r d'
  | None => False
  end.
Proof.
  intros iv d. subst iv d.
  unfold Start.
  repeat first [ step_any | branch ].
  all: unfold Start_post_any;
    cbv beta iota zeta delta
      [result executed stored is_creation Start_steps passes failure_status heap trace
       fst snd];
    unfold handle, succeeded in *;
    use_host; cbv beta iota;
    (split; [reflexivity |]);
    eexists _, _, _;
    (split; [reflexivity |]).
  all: (split; [ repeat first [ rewrite calls_made_Release
                              | rewrite calls_made_Release_only
                              | rewrite calls_made_keep by reflexivity ];
                 reflexivity |]).
  all: (split; [ repeat first [ rewrite releases_Release_app
                              | rewrite releases_Release_only
                              | rewrite releases_skip by reflexivity ];
                 cbn [length take construction_fields audioDevice inputStream
                      outputStream volumeControl muteControl inputBuffer outputBuffer];
                 rewrite ?omap_id_cons; reflexivity |]).
  all: (split; [reflexivity |]); (split; [reflexivity |]);
       (split; [reflexivity |]); (split; [reflexivity |]); (split; [reflexivity |]);
       (split; [reflexivity |]).
  all: (split; [ cbn; repeat (f_equal; try lia) |]).
  all: (split; [ cbn [service_registered]; use_status; reflexivity |]).
  all: (split;
    [ first [ left; reflexivity
            | right; unfold Start_registered;
              eexists _, _, _, _, _, _, _, _, _, _;
              repeat (split; [ first [ reflexivity | lookup_new; reflexivity ] |]);
              lookup_new; reflexivity ] |]).
  all: unfold Start_device_ok; intros dev Hdev;
    revert Hdev; lookup_new; intros Hdev;
    first [ discriminate Hdev | injection Hdev as <- ];
    (split; [ cbn; use_status; reflexivity |]);
    cbn [dev_streams dev_set_ioRunning dev_set_controls dev_set_streams
         dev_set_zeroTimeStampPeriod dev_set_sampleRate
         dev_set_canBeDefaultForSystemSounds dev_set_canBeDefault
         dev_set_manufacturer dev_set_modelUID dev_set_name
         omap list_omap];
    lookup_new; use_status;
    repeat (constructor; [solve_stream |]); constructor.
Qed.

Lemma Start_run_any host d iv :
  ivars d = Some iv →
  match run (Start host) d with
  | Some (r, d') => Start_post_any host d iv r d'
  | None => False
  end.
Proof.
  intros Hiv. destruct d as [oiv l objs reg tr]. cbn in Hiv. subst oiv.
  destruct iv as [a_dev a_in a_out a_vol a_mute a_ibuf a_obuf v m r].
  pose proof (Start_run_any_aux host a_dev a_in a_out a_vol a_mute a_ibuf a_obuf
                v m r objs reg tr l) as H.
  cbv zeta in H. rewrite app_nil_r in H. exact H.
Qed.

(** ** [init], in full *)

(** X1.  [init] returns true exactly when both the superclass's [init] and
    the allocation of the [ivars] block succeed, and never creates a
    host-side object.  When the superclass fails, no allocation is attempted
    and the [ivars] pointer is left as it was; when the allocation fails the
    pointer is null; on success the block holds no object, the volume level
    is 1 and the two flags are false. *)
Theorem init_outcomes host d :
  ∃ d',
    run (init host) d
    = Some (succeeds host Ev.super_init && succeeds host Ev.IONewZero_IVars, d') ∧
    heap d' = heap d ∧
    driver_objects d' = driver_objects d ∧
    service_registered d' = service_registered d ∧
    (if succeeds host Ev.super_init
     then trace d' = trace d ++ [Ev.super_init; Ev.IONewZero_IVars] ∧
          ivars d' = (if succeeds host Ev.IONewZero_IVars
                      then Some {| audioDevice := None; inputStream := None;
                                   outputStream := None; volumeControl := None;
                                   muteControl := None; inputBuffer := None;
                                   outputBuffer := None; volumeLevel := 1;
                                   isMuted := false; isRunning := false |}
                      else None)
     else trace d' = trace d ++ [Ev.super_init] ∧ ivars d' = ivars d).
Proof.
  unfold init, run, bind, log, modify, return_when, ivars_is_null, set_ivars,
    return_, pure.
  destruct (succeeds host Ev.super_init); cbn.
  - destruct (succeeds host Ev.IONewZero_IVars); cbn;
      (eexists; split; [reflexivity |]); cbn; rewrite <- app_assoc; repeat split.
  - eexists; split; [reflexivity |]. repeat split.
Qed.

(** ** [Start] entered in any state *)

Lemma created_between_app d d' objs :
  heap d' = heap d ++ objs →
  created_between d d' = seq (length (heap d)) (length objs).
Proof.
  intros H. unfold created_between. rewrite H, length_app. f_equal. lia.
Qed.

(** X2.  [Start] entered in any state that has its [ivars] block, a retry
    after a failed [Start] included, never dereferences a null pointer.  It
    returns the status and makes the framework calls of the table, as from a
    fresh block.  Each field it assigns releases the object the field held,
    once and in the order of the assignments; the fields it does not reach
    keep their objects; the fields assigned hold the objects created by the
    call, in the order of creation (a null pointer for a creation that
    failed); [volumeLevel], [isMuted] and [isRunning] are unchanged. *)
Theorem Start_from_any_state host d iv :
  ivars d = Some iv →
  ∃ d' iv' new,
    run (Start host) d = Some (result host (Start_steps (length (heap d))), d') ∧
    trace d' = trace d ++ new ∧
    calls_made new = executed host (Start_steps (length (heap d))) ∧
    ivars d' = Some iv' ∧
    releases new
    = omap id (take (length (stored host (length (heap d)) 0
                               (Start_steps (length (heap d)))))
                 (construction_fields iv)) ∧
    construction_fields iv'
    = stored host (length (heap d)) 0 (Start_steps (length (heap d)))
      ++ drop (length (stored host (length (heap d)) 0
                         (Start_steps (length (heap d)))))
           (construction_fields iv) ∧
    omap id (stored host (length (heap d)) 0 (Start_steps (length (heap d))))
    = created_between d d' ∧
    volumeLevel iv' = volumeLevel iv ∧
    isMuted iv' = isMuted iv ∧
    isRunning iv' = isRunning iv.
Proof.
  intros Hiv. pose proof (Start_run_any host d iv Hiv) as H.
  destruct (run (Start host) d) as [[r d']|]; [|contradiction].
  destruct H as (Hr & new & objs & iv' & Htr & Hcalls & Hrel & Hiv' & Hcf & Hv & Hm
                 & Hrun & Hheap & Hnew & _).
  exists d', iv', new. rewrite Hr.
  split_and!; try assumption; try reflexivity.
  now rewrite (created_between_app d d' objs Hheap).
Qed.

Lemma Start_from_any_state_witness :
  ivars partly_started = Some (ivars_of partly_started) ∧
  ∃ d' new,
    run (Start host_ok) partly_started = Some (kIOReturnSuccess, d') ∧
    trace d' = trace partly_started ++ new ∧
    releases new = [0; 1]%nat.
Proof.
  split; [reflexivity |].
  destruct (Start_from_any_state host_ok partly_started (ivars_of partly_started)
              eq_refl)
    as (d' & iv' & new & Hrun & Htr & _ & _ & Hrel & _).
  exists d', new. split; [exact Hrun |]. split; [exact Htr | exact Hrel].
Defined.

Lemma owned_construction_fields iv : owned iv ≡ₚ omap id (construction_fields iv).
Proof.
  unfold owned, construction_fields. rewrite !omap_id_cons. cbn [omap list_omap].
  rewrite app_nil_r.
  apply Permutation_app_head.
  rewrite (app_assoc (option_list (inputStream iv))),
          (app_assoc (option_list (outputStream iv))).
  rewrite (Permutation_app_comm (option_list (inputStream iv))).
  apply Permutation_app_head, Permutation_app_head, Permutation_app_head.
  apply Permutation_app_comm.
Qed.

Lemma Permutation_rotate3 {A} (a b c : list A) : (a ++ b) ++ c ≡ₚ (c ++ b) ++ a.
Proof.
  rewrite (Permutation_app_comm (a ++ b) c), (Permutation_app_comm a b).
  now rewrite app_assoc.
Qed.

Lemma conservation_of_post host d iv r d' :
  ivars d = Some iv →
  Start_post_any host d iv r d' →
  owned_objects d' ++ releases (drop (length (trace d)) (trace d'))
  ≡ₚ owned_objects d ++ created_between d d'.
Proof.
  intros Hiv H.
  destruct H as (_ & new & objs & iv' & Htr & _ & Hrel & Hiv' & Hcf & _ & _ & _
                 & Hheap & Hnew & _).
  rewrite Htr, drop_app_length, Hrel.
  unfold owned_objects. rewrite Hiv, Hiv'.
  rewrite (created_between_app d d' objs Hheap), <- Hnew.
  rewrite !owned_construction_fields, Hcf, omap_app.
  set (news := stored host _ _ _).
  rewrite <- (take_drop (length news) (construction_fields iv)) at 3.
  rewrite omap_app. apply Permutation_rotate3.
Qed.

(** X3.  [Start] loses no object: whatever status it returns, the objects
    held at return together with the objects released during the call are,
    each counted once, the objects held at entry together with the objects
    created by the call. *)
Theorem Start_conserves_objects host d iv r d' :
  ivars d = Some iv →
  run (Start host) d = Some (r, d') →
  owned_objects d' ++ releases (drop (length (trace d)) (trace d'))
  ≡ₚ owned_objects d ++ created_between d d'.
Proof.
  intros Hiv Hrun. pose proof (Start_run_any host d iv Hiv) as H.
  rewrite Hrun in H. exact (conservation_of_post host d iv r d' Hiv H).
Qed.

Lemma Start_conserves_objects_witness :
  ivars partly_started = Some (ivars_of partly_started) ∧
  run (Start host_ok) partly_started = Some (kIOReturnSuccess, restarted) ∧
  owned_objects restarted
  ++ releases (drop (length (trace partly_started)) (trace restarted))
  ≡ₚ owned_objects partly_started ++ created_between partly_started restarted.
Proof.
  assert (Hrun : run (Start host_ok) partly_started
                 = Some (kIOReturnSuccess, restarted))
    by (vm_compute; reflexivity).
  split; [reflexivity |]. split; [exact Hrun |].
  exact (Start_conserves_objects host_ok partly_started (ivars_of partly_started)
           kIOReturnSuccess restarted eq_refl Hrun).
Defined.

(** X4.  [Start] changes no host-side object that existed before the call:
    the store only grows at its end.  It withdraws no device registered with
    the driver before and never takes the advertisement of the service
    back. *)
Theorem Start_keeps_existing_objects host d iv r d' :
  ivars d = Some iv →
  run (Start host) d = Some (r, d') →
  (∀ h, (h < length (heap d))%nat → heap d' !! h = heap d !! h) ∧
  (length (heap d) ≤ length (heap d'))%nat ∧
  driver_objects d `prefix_of` driver_objects d' ∧
  (service_registered d = true → service_registered d' = true).
Proof.
  intros Hiv Hrun. pose proof (Start_run_any host d iv Hiv) as H.
  rewrite Hrun in H.
  destruct H as (_ & new & objs & iv' & _ & _ & _ & _ & _ & _ & _ & _
                 & Hheap & _ & Hsvc & Hreg & _).
  split_and!.
  - intros h Hh. rewrite Hheap. now apply lookup_app_l.
  - rewrite Hheap, length_app. lia.
  - destruct Hreg as [-> | (h & dev & ho & hi & hv & hm & so & si & vc & mc & -> & _)].
    + reflexivity.
    + now apply prefix_app_r.
  - intros Hd. rewrite Hsvc, Hd. now destruct (succeeded r).
Qed.

Lemma Start_keeps_existing_objects_witness :
  ivars partly_started = Some (ivars_of partly_started) ∧
  run (Start host_ok) partly_started = Some (kIOReturnSuccess, restarted) ∧
  heap restarted !! 0%nat = heap partly_started !! 0%nat ∧
  heap restarted !! 1%nat = heap partly_started !! 1%nat.
Proof.
  assert (Hrun : run (Start host_ok) partly_started
                 = Some (kIOReturnSuccess, restarted))
    by (vm_compute; reflexivity).
  split; [reflexivity |]. split; [exact Hrun |].
  destruct (Start_keeps_existing_objects host_ok partly_started
              (ivars_of partly_started) kIOReturnSuccess restarted eq_refl Hrun)
    as (Hold & _).
  split; apply Hold; cbn; lia.
Defined.

(** X5.  [Start] registers a device with the driver only when it is
    complete: either the registered devices are unchanged, or exactly the
    device of [ivars] was added and it has the output stream, the input
    stream, the volume control and the mute control of [ivars] attached. *)
Theorem Start_registers_complete_device host d iv r d' :
  ivars d = Some iv →
  run (Start host) d = Some (r, d') →
  driver_objects d' = driver_objects d ∨
  ∃ iv', ivars d' = Some iv' ∧ Start_registered d d' iv'.
Proof.
  intros Hiv Hrun. pose proof (Start_run_any host d iv Hiv) as H.
  rewrite Hrun in H.
  destruct H as (_ & new & objs & iv' & _ & _ & _ & Hiv' & _ & _ & _ & _
                 & _ & _ & _ & [Hreg | Hreg] & _).
  - now left.
  - right. now exists iv'.
Qed.

Lemma Start_registers_complete_device_witness :
  ivars initialized = Some (ivars_of initialized) ∧
  run (Start host_ok) initialized = Some (kIOReturnSuccess, started) ∧
  (driver_objects started = driver_objects initialized ∨
   ∃ iv', ivars started = Some iv' ∧ Start_registered initialized started iv').
Proof.
  assert (Hrun : run (Start host_ok) initialized = Some (kIOReturnSuccess, started))
    by (vm_compute; reflexivity).
  split; [reflexivity |]. split; [exact Hrun |].
  exact (Start_registers_complete_device host_ok initialized (ivars_of initialized)
           kIOReturnSuccess started eq_refl Hrun).
Defined.

(** X6.  [Start] advertises the service exactly when it returns
    [kIOReturnSuccess], and the device it created runs I/O exactly then.  A
    stream attached to that device always has the format; a buffer bound to
    it is the buffer [ivars] holds for its direction and has [bufferSize]
    bytes; and when [Start] succeeded every attached stream is bound to a
    buffer. *)
Theorem Start_runs_io_only_on_success host d iv r d' :
  ivars d = Some iv →
  run (Start host) d = Some (r, d') →
  service_registered d' = (if succeeded r then true else service_registered d) ∧
  ∃ iv', ivars d' = Some iv' ∧ Start_device_ok r d d' iv'.
Proof.
  intros Hiv Hrun. pose proof (Start_run_any host d iv Hiv) as H.
  rewrite Hrun in H.
  destruct H as (_ & new & objs & iv' & _ & _ & _ & Hiv' & _ & _ & _ & _
                 & _ & _ & Hsvc & _ & Hdev).
  split; [exact Hsvc |]. now exists iv'.
Qed.

Lemma Start_runs_io_only_on_success_witness :
  ivars initialized = Some (ivars_of initialized) ∧
  run (Start host_without_input_stream) initialized
  = Some (kIOReturnNoMemory, partly_started) ∧
  service_registered partly_started = false.
Proof.
  assert (Hrun : run (Start host_without_input_stream) initialized
                 = Some (kIOReturnNoMemory, partly_started))
    by (vm_compute; reflexivity).
  split; [reflexivity |]. split; [exact Hrun |].
  destruct (Start_runs_io_only_on_success host_without_input_stream initialized
              (ivars_of initialized) kIOReturnNoMemory partly_started eq_refl Hrun)
    as (Hsvc & _).
  exact Hsvc.
Defined.

(** ** [Stop] with a device *)

(** X7.  With a device present, [Stop] leaves it withdrawn from the driver
    and with its I/O stopped, keeps the other registered devices, changes no
    other host-side object and keeps the [ivars] block as it was; it returns
    the status of the superclass. *)
Theorem Stop_withdraws_device host d iv h :
  ivars d = Some iv →
  audioDevice iv = Some h →
  ∃ d',
    run (Stop host) d = Some (status host Ev.super_Stop, d') ∧
    ivars d' = Some iv ∧
    (h ∉ driver_objects d') ∧
    (∀ o, o ≠ h → (o ∈ driver_objects d' ↔ o ∈ driver_objects d)) ∧
    lookup_device d' h = (dev_set_ioRunning false <$> lookup_device d h) ∧
    (∀ o, o ≠ h → heap d' !! o = heap d !! o) ∧
    length (heap d') = length (heap d) ∧
    service_registered d' = service_registered d.
Proof.
  intros Hiv Hh. pose proof (Stop_run host d iv Hiv) as H. rewrite Hh in H.
  eexists. split; [exact H |]. cbn.
  split_and!; try reflexivity.
  - exact Hiv.
  - intros [Hne _]%list_elem_of_filter. now apply Hne.
  - intros o Ho. rewrite list_elem_of_filter. split; [now intros [_ ?] |].
    intros Hin. split; [congruence | exact Hin].
  - unfold lookup_device. cbn. rewrite list_lookup_alter_eq. unfold handle in *.
    destruct (heap d !! h) as [[x| | | |]|]; reflexivity.
  - intros o Ho. now apply list_lookup_alter_ne.
  - apply length_alter.
Qed.

Lemma Stop_withdraws_device_witness :
  ivars started = Some (ivars_of started) ∧
  audioDevice (ivars_of started) = Some 0%nat ∧
  ∃ d', run (Stop host_ok) started = Some (kIOReturnSuccess, d') ∧
        (0%nat ∉ driver_objects d') ∧
        (dev_ioRunning <$> lookup_device d' 0%nat) = Some false.
Proof.
  split; [reflexivity |]. split; [reflexivity |].
  destruct (Stop_withdraws_device host_ok started (ivars_of started) 0%nat
              eq_refl eq_refl)
    as (d' & Hrun & _ & Hout & _ & Hdev & _).
  exists d'. split; [exact Hrun |]. split; [exact Hout |].
  rewrite Hdev. reflexivity.
Defined.

(** ** Notifications *)

(** One notification. *)
Lemma notify_run n d iv :
  ivars d = Some iv →
  ∃ d1,
    run (notify n) d = Some (kIOReturnSuccess, d1) ∧
    ivars d1 = Some (set_isRunning (last_running [n] (isRunning iv)) iv) ∧
    heap d1 = heap d ∧
    driver_objects d1 = driver_objects d ∧
    service_registered d1 = service_registered d ∧
    trace d1 = trace d.
Proof.
  intros Hiv. destruct n; cbn [notify last_running].
  - exists (with_ivars (Some (set_isRunning true iv)) d).
    unfold StartDevice, run, bind, set_ivars, return_. rewrite Hiv.
    split_and!; reflexivity.
  - exists (with_ivars (Some (set_isRunning false iv)) d).
    unfold StopDevice, run, bind, set_ivars, return_. rewrite Hiv.
    split_and!; reflexivity.
  - exists d. split_and!; try reflexivity. rewrite Hiv. now destruct iv.
  - exists d. split_and!; try reflexivity. rewrite Hiv. now destruct iv.
  - exists d. split_and!; try reflexivity. rewrite Hiv. now destruct iv.
Qed.

(** Notifications keep the objects held and make no call. *)
Lemma notify_all_keeps ns d iv :
  ivars d = Some iv →
  ∃ rs d' b,
    notify_all ns d = Some (rs, d') ∧
    ivars d' = Some (set_isRunning b iv) ∧
    trace d' = trace d.
Proof.
  revert d iv. induction ns as [|n ns IH]; intros d iv Hiv.
  - exists [], d, (isRunning iv). split_and!; try reflexivity.
    rewrite Hiv. now destruct iv.
  - destruct (notify_run n d iv Hiv) as (d1 & Hrun & Hiv1 & _ & _ & _ & Ht1).
    destruct (IH d1 _ Hiv1) as (rs & d' & b & Hall & Hiv' & Ht').
    exists (kIOReturnSuccess :: rs), d', b. cbn [notify_all]. rewrite Hrun, Hall.
    split_and!; [reflexivity | exact Hiv' | congruence].
Qed.

(** X8.  Any sequence of host notifications (start, stop, configuration
    change, abort, format change) delivered to a driver that has its [ivars]
    block is acknowledged with [kIOReturnSuccess] each, makes no framework
    call and changes nothing but [isRunning], which ends as the last start or
    stop notification set it (unchanged when there is none). *)
Theorem notifications_only_set_isRunning ns d iv :
  ivars d = Some iv →
  ∃ d',
    notify_all ns d = Some (replicate (length ns) kIOReturnSuccess, d') ∧
    ivars d' = Some (set_isRunning (last_running ns (isRunning iv)) iv) ∧
    heap d' = heap d ∧
    driver_objects d' = driver_objects d ∧
    service_registered d' = service_registered d ∧
    trace d' = trace d.
Proof.
  revert d iv. induction ns as [|n ns IH]; intros d iv Hiv.
  - exists d. split_and!; try reflexivity. rewrite Hiv. now destruct iv.
  - destruct (notify_run n d iv Hiv) as (d1 & Hrun & Hiv1 & Hh & Ho & Hs & Ht).
    destruct (IH d1 _ Hiv1) as (d' & Hall & Hiv' & Hh' & Ho' & Hs' & Ht').
    exists d'. cbn [notify_all length replicate]. rewrite Hrun, Hall.
    split_and!; try reflexivity; try congruence.
    rewrite Hiv'. destruct n; reflexivity.
Qed.

(** ** The whole life of a driver *)

Lemma releases_free_calls d : releases (free_calls d) = owned_objects d.
Proof.
  unfold free_calls. rewrite releases_app, releases_Release.
  destruct (ivars d); cbn; apply app_nil_r.
Qed.

Lemma notifications_only_set_isRunning_witness :
  ivars started = Some (ivars_of started) ∧
  ∃ d',
    notify_all [NStartDevice kDeviceObjectID 0;
                NPerformDeviceConfigurationChange kDeviceObjectID 7 None;
                NStopDevice kDeviceObjectID 0;
                NStartDevice kOutputStreamObjectID 1;
                NHandleChangedStreamFormat kOutputStreamObjectID (Some 1%nat)
                  (Some format) None] started
    = Some ([kIOReturnSuccess; kIOReturnSuccess; kIOReturnSuccess;
             kIOReturnSuccess; kIOReturnSuccess], d') ∧
    (isRunning <$> ivars d') = Some true ∧
    heap d' = heap started.
Proof.
  split; [reflexivity |].
  destruct (notifications_only_set_isRunning
              [NStartDevice kDeviceObjectID 0;
               NPerformDeviceConfigurationChange kDeviceObjectID 7 None;
               NStopDevice kDeviceObjectID 0;
               NStartDevice kOutputStreamObjectID 1;
               NHandleChangedStreamFormat kOutputStreamObjectID (Some 1%nat)
                 (Some format) None] started (ivars_of started) eq_refl)
    as (d' & Hall & Hiv' & Hheap & _).
  exists d'. split; [exact Hall |]. split; [|exact Hheap].
  rewrite Hiv'. reflexivity.
Defined.

Lemma free_run d :
  ∃ d', run free d = Some (tt, d') ∧ ivars d' = None ∧
        trace d' = trace d ++ free_calls d.
Proof.
  destruct d as [[iv|] l objs reg tr].
  - eexists. split.
    + unfold free. erewrite run_bind_next by reflexivity.
      erewrite run_bind_next; [reflexivity |]. cbn [ivars negb when].
      do 7 (erewrite bind_next by (apply reset_run; reflexivity)).
      reflexivity.
    + split; [reflexivity |].
      unfold free_calls, owned_objects, owned. cbn.
      rewrite !map_app, <- !app_assoc. reflexivity.
  - eexists. split; [reflexivity |]. split; reflexivity.
Qed.

Lemma owned_set_isRunning b iv : owned (set_isRunning b iv) = owned iv.
Proof. reflexivity. Qed.

Lemma releases_Stop_calls iv : releases (Stop_calls iv) = [].
Proof. unfold Stop_calls. now destruct (audioDevice iv). Qed.

(** X9.  A whole life: [Start] with any outcome, any notifications, [Stop],
    any notifications, [free].  No step faults; at the end the driver holds no
    object and no block, and the objects released over the whole run are,
    each once, the objects held at entry together with the objects [Start]
    created. *)
Theorem lifecycle_releases_every_object host host' ns1 ns2 d iv :
  ivars d = Some iv →
  ∃ r d1 rs1 d2 d3 rs2 d4 d5,
    run (Start host) d = Some (r, d1) ∧
    notify_all ns1 d1 = Some (rs1, d2) ∧
    run (Stop host') d2 = Some (status host' Ev.super_Stop, d3) ∧
    notify_all ns2 d3 = Some (rs2, d4) ∧
    run free d4 = Some (tt, d5) ∧
    ivars d5 = None ∧
    owned_objects d5 = [] ∧
    releases (drop (length (trace d)) (trace d5))
    ≡ₚ owned_objects d ++ created_between d d1.
Proof.
  intros Hiv.
  pose proof (Start_run_any host d iv Hiv) as HS.
  destruct (run (Start host) d) as [[r d1]|] eqn:Hrun; [|contradiction].
  pose proof (conservation_of_post host d iv r d1 Hiv HS) as Hcons.
  destruct HS as (_ & new & objs & iv1 & Htr1 & _ & _ & Hiv1 & _).
  destruct (notify_all_keeps ns1 d1 iv1 Hiv1) as (rs1 & d2 & b1 & Hn1 & Hiv2 & Htr2).
  pose proof (Stop_run host' d2 _ Hiv2) as HStop.
  set (iv2 := set_isRunning b1 iv1) in *.
  set (d3 := match audioDevice iv2 with Some _ => _ | None => _ end) in HStop.
  assert (Hiv3 : ivars d3 = Some iv2)
    by (subst d3; destruct (audioDevice iv2); exact Hiv2).
  assert (Htr3 : trace d3 = trace d2 ++ Stop_calls iv2)
    by (subst d3; destruct (audioDevice iv2); reflexivity).
  clearbody d3.
  destruct (notify_all_keeps ns2 d3 _ Hiv3) as (rs2 & d4 & b2 & Hn2 & Hiv4 & Htr4).
  destruct (free_run d4) as (d5 & Hfree & Hiv5 & Htr5).
  pose proof (releases_free_calls d4) as Hrel5.
  exists r, d1, rs1, d2, d3, rs2, d4, d5.
  split_and!; try eassumption; try reflexivity;
    [unfold owned_objects; now rewrite Hiv5 |].
  rewrite Htr5, Htr4, Htr3, Htr2.
  rewrite Htr1 in Hcons |- *. rewrite drop_app_length in Hcons.
  rewrite <- !app_assoc, drop_app_length.
  rewrite !releases_app, releases_Stop_calls, Hrel5. cbn [app].
  unfold owned_objects at 1. rewrite Hiv4, !owned_set_isRunning.
  unfold owned_objects at 1 in Hcons. rewrite Hiv1 in Hcons.
  rewrite <- Hcons. apply Permutation_app_comm.
Qed.

Lemma lifecycle_releases_every_object_witness :
  ivars initialized = Some (ivars_of initialized) ∧
  ∃ r d1 rs1 d2 d3 rs2 d4 d5,
    run (Start host_without_input_stream) initialized = Some (r, d1) ∧
    notify_all [NStartDevice kDeviceObjectID 0] d1 = Some (rs1, d2) ∧
    run (Stop host_ok) d2 = Some (kIOReturnSuccess, d3) ∧
    notify_all [NStopDevice kDeviceObjectID 0] d3 = Some (rs2, d4) ∧
    run free d4 = Some (tt, d5) ∧
    ivars d5 = None ∧
    releases (drop (length (trace initialized)) (trace d5))
    ≡ₚ owned_objects initialized ++ created_between initialized d1.
Proof.
  split; [reflexivity |].
  destruct (lifecycle_releases_every_object host_without_input_stream host_ok
              [NStartDevice kDeviceObjectID 0] [NStopDevice kDeviceObjectID 0]
              initialized (ivars_of initialized) eq_refl)
    as (r & d1 & rs1 & d2 & d3 & rs2 & d4 & d5 & H1 & H2 & H3 & H4 & H5 & H6 & _ & H8).
  exists r, d1, rs1, d2, d3, rs2, d4, d5.
  split_and!; assumption.
Defined.

(** ** Null [ivars] *)

(** X10.  The methods that dereference [ivars] unchecked: [Stop],
    [StartDevice] and [StopDevice] fault exactly when [ivars] is null, and
    [Start] exactly when [ivars] is null and the superclass's [Start]
    succeeded.  [init], [free], [NewUserClient] and the three configuration
    handlers never fault. *)
Theorem faults_exactly_on_null_ivars host
    (id : IOUserAudioObjectID) (flags : IOUserAudioStartStopFlags) (action type : Z)
    (info stream : option handle)
    (old_format new_format : option IOUserAudioStreamBasicDescription) (d : Driver) :
  (run (Start host) d = None ↔
   ivars d = None ∧ status host Ev.super_Start = kIOReturnSuccess) ∧
  (run (Stop host) d = None ↔ ivars d = None) ∧
  (run (StartDevice id flags) d = None ↔ ivars d = None) ∧
  (run (StopDevice id flags) d = None ↔ ivars d = None) ∧
  run (init host) d ≠ None ∧
  run free d ≠ None ∧
  run (NewUserClient host type) d ≠ None ∧
  run (PerformDeviceConfigurationChange id action info) d ≠ None ∧
  run (AbortDeviceConfigurationChange id action info) d ≠ None ∧
  run (HandleChangedStreamFormat id stream old_format new_format) d ≠ None.
Proof.
  split_and!.
  - destruct (ivars d) as [iv|] eqn:Hiv.
    + pose proof (Start_run_any host d iv Hiv) as H.
      destruct (run (Start host) d) as [[r d']|]; [|contradiction].
      split; [discriminate | intros [[=] _]].
    + destruct d as [oiv l objs reg tr]. cbn in Hiv. subst oiv. unfold Start.
      destruct (status host Ev.super_Start =? kIOReturnSuccess) eqn:E.
      * erewrite run_bind_next by solve_op.
        erewrite run_bind_next by solve_op.
        apply Z.eqb_eq in E.
        destruct (succeeds host (Ev.IOUserAudioDevice_Create false deviceUID)) eqn:E2;
          (erewrite run_bind_next by solve_op);
          (erewrite run_bind_fault by (eval_op; reflexivity));
          (split; [intros _; split; [reflexivity | exact E] | reflexivity]).
      * erewrite run_bind_next by solve_op.
        erewrite run_bind_return by solve_op.
        split; [discriminate |]. intros [_ Hs]. rewrite Hs in E. discriminate E.
  - destruct (ivars d) as [iv|] eqn:Hiv.
    + rewrite (Stop_run host d iv Hiv). split; discriminate.
    + unfold Stop, run, bind, ivar. rewrite Hiv. split; reflexivity.
  - unfold StartDevice, run, bind, set_ivars, return_.
    destruct (ivars d); split; (reflexivity || discriminate).
  - unfold StopDevice, run, bind, set_ivars, return_.
    destruct (ivars d); split; (reflexivity || discriminate).
  - unfold init, run, bind, log, modify, return_when, ivars_is_null, set_ivars,
      return_, pure.
    destruct (succeeds host Ev.super_init); cbn; [|discriminate].
    destruct (succeeds host Ev.IONewZero_IVars); cbn; discriminate.
  - destruct (free_run d) as (d' & H & _). rewrite H. discriminate.
  - unfold NewUserClient, run, bind, call, log, modify, when, pure, return_.
    destruct (succeeded _); discriminate.
  - discriminate.
  - discriminate.
  - discriminate.
Qed.
